(** * Fourier coefficients of the piston acceleration

    A shallow embedding of [scripts/fourier_piston.py]: the analytic
    per-segment integrals ([piecewise_integral]), the coefficient loops
    ([compute_a0], [compute_an_bn]) and the evaluation of the truncated
    series ([reconstruct]).

    Numbers.  The functions are embedded twice.  In the first embedding
    Python's [float] is the real numbers [R]: every arithmetic operation is
    exact, [math.sin], [math.cos] and [math.pi] are [sin], [cos] and [PI],
    and there is no rounding, no infinity and no NaN.  This is the
    arithmetic the formulas of the specification are written in.  In the
    second embedding, the module [B64], [float] is IEEE 754 binary64, as in
    the interpreter.  What is proved of the first embedding is a statement
    about the script in exact arithmetic; the claims that do not survive
    rounding are refuted in the second.  Python's [int] is [Z].

    Exceptions.  The exceptions the module raises in exact arithmetic are
    modelled with a result monad: float division and float modulo by zero
    raise [ZeroDivisionError], arithmetic on [None] raises [TypeError], and
    [piecewise_integral] raises [ValueError] itself.  Two more exist on the
    floats alone and are found in [B64]: [OverflowError] for an index too
    large for a float, and the [ValueError] of [math.sin] and [math.cos] at
    an infinite argument.

    Globals.  The module-level constants [T] and [SEGMENTS] are read by every
    function; the functions are written in a section over them and the
    values the module binds are given after it. *)

From Stdlib Require Import Reals Lra Lia ZArith List String Bool Permutation.
Import ListNotations.

Open Scope R_scope.

(** ** Exceptions *)

Inductive exn : Type :=
| ZeroDivisionError
| TypeError
| ValueError (msg : string).

Inductive result (A : Type) : Type :=
| Ok (a : A)
| Raise (e : exn).

Arguments Ok {A} a.
Arguments Raise {A} e.

Definition bind {A B : Type} (m : result A) (k : A -> result B) : result B :=
  match m with
  | Ok a => k a
  | Raise e => Raise e
  end.

Notation "x <- m ;; k" := (bind m (fun x => k))
  (at level 61, m at next level, right associativity).
Notation "' p <- m ;; k" := (bind m (fun x => match x with p => k end))
  (at level 61, p pattern, m at next level, right associativity).

(** A [for] loop whose body may raise: the accumulator is threaded through
    the items in order and the first exception ends the loop. *)
Fixpoint for_each {A S : Type} (body : S -> A -> result S) (items : list A)
  (s : S) : result S :=
  match items with
  | [] => Ok s
  | x :: rest => s' <- body s x ;; for_each body rest s'
  end.

(** ** The Python operations the module uses *)

Module Py.

(** [x / y] on floats. *)
Definition truediv (x y : R) : result R :=
  if Req_dec_T y 0 then Raise ZeroDivisionError else Ok (x / y).

(** Rounding towards zero, as C's [fmod] does to the quotient. *)
Definition trunc (q : R) : Z :=
  if Rle_dec 0 q then Zfloor q else Zceil q.

(** C's [fmod]: the remainder has the sign of the dividend. *)
Definition fmod (x y : R) : R := x - IZR (trunc (x / y)) * y.

(** [x % y] on floats (CPython's [float_rem]): [fmod], then the remainder
    is moved to the sign of the divisor. *)
Definition float_rem (vx wx : R) : result R :=
  if Req_dec_T wx 0 then Raise ZeroDivisionError
  else
    let m := fmod vx wx in
    if Req_dec_T m 0 then Ok 0
    else if xorb (if Rlt_dec wx 0 then true else false)
                 (if Rlt_dec m 0 then true else false)
         then Ok (m + wx)
         else Ok m.

(** [range(start, stop)]. *)
Definition range (start stop : Z) : list Z :=
  map (fun i => (start + Z.of_nat i)%Z) (seq 0 (Z.to_nat (stop - start))).

(** [enumerate(items, start)]. *)
Fixpoint enumerate {A : Type} (items : list A) (start : Z) : list (Z * A) :=
  match items with
  | [] => []
  | x :: rest => (start, x) :: enumerate rest (start + 1)
  end.

(** [zip(xs, ys)] stops at the shorter list. *)
Definition zip {A B : Type} (xs : list A) (ys : list B) : list (A * B) :=
  combine xs ys.

(** A float operand that may be [None]. *)
Definition to_float (n : option Z) : result R :=
  match n with
  | Some z => Ok (IZR z)
  | None => Raise TypeError
  end.

End Py.

(** ** The module *)

(** A segment is the tuple [(start, end, value)]. *)
Definition segment : Type := R * R * R.

(** The [func] argument of [piecewise_integral]: a kind tag and a harmonic
    index, [None] for the constant integrand. *)
Definition func_tag : Type := string * option Z.

Section Module_globals.

Variable T : R.
Variable SEGMENTS : list segment.

Definition piecewise_integral (value t0 t1 : R) (func : func_tag)
  : result R :=
  let '(kind, n) := func in
  if (kind =? "const")%string then
    Ok (value * (t1 - t0))
  else
    n' <- Py.to_float n ;;
    w <- Py.truediv (2 * PI * n') T ;;
    if (kind =? "cos")%string then
      Py.truediv (value * (sin (w * t1) - sin (w * t0))) w
    else if (kind =? "sin")%string then
      Py.truediv (- value * (cos (w * t1) - cos (w * t0))) w
    else
      Raise (ValueError ("Unknown func kind: " ++ kind)).

Definition compute_a0 : result R :=
  total <- for_each
             (fun total '(t0, t1, v) =>
                x <- piecewise_integral v t0 t1 ("const"%string, None) ;;
                Ok (total + x))
             SEGMENTS 0 ;;
  c <- Py.truediv 2 T ;;
  Ok (c * total).

(** The inner loop of [compute_an_bn]: both integrals of one harmonic,
    accumulated over the segments. *)
Definition harmonic_sums (n : Z) : result (R * R) :=
  for_each
    (fun '(a_n, b_n) '(t0, t1, v) =>
       x <- piecewise_integral v t0 t1 ("cos"%string, Some n) ;;
       y <- piecewise_integral v t0 t1 ("sin"%string, Some n) ;;
       Ok (a_n + x, b_n + y))
    SEGMENTS (0, 0).

Definition compute_an_bn (N : Z) : result (list R * list R) :=
  for_each
    (fun '(a_list, b_list) n =>
       '(a_n, b_n) <- harmonic_sums n ;;
       ca <- Py.truediv 2 T ;;
       cb <- Py.truediv 2 T ;;
       Ok (a_list ++ [a_n * ca], b_list ++ [b_n * cb]))
    (Py.range 1 (N + 1)) ([], []).

Definition reconstruct (t a0 : R) (a_list b_list : list R) : result R :=
  t' <- Py.float_rem t T ;;
  for_each
    (fun s '(n, (a_n, b_n)) =>
       w <- Py.truediv (2 * PI * IZR n) T ;;
       Ok (s + (a_n * cos (w * t') + b_n * sin (w * t'))))
    (Py.enumerate (Py.zip a_list b_list) 1) (a0 / 2).

End Module_globals.

(** The values the module binds. *)
Definition T : R := 60.

Definition SEGMENTS : list segment :=
  [ (0, 10, 3); (10, 30, 0); (30, 40, 1); (40, 60, 0) ].

(** ** The closed forms of the specification

    The specification gives each coefficient as [2/T] times a sum over the
    segments, taken in list order. *)

(** The sum of a list, accumulated from the left as a loop does. *)
Definition Rsum (xs : list R) : R := fold_left Rplus xs 0.

(** The angular frequency [w_n = 2 pi n / T]. *)
Definition omega (T : R) (n : Z) : R := 2 * PI * IZR n / T.

Definition const_term : segment -> R :=
  fun '(t0, t1, v) => v * (t1 - t0).

Definition cos_term (w : R) : segment -> R :=
  fun '(t0, t1, v) => v * (sin (w * t1) - sin (w * t0)) / w.

Definition sin_term (w : R) : segment -> R :=
  fun '(t0, t1, v) => - v * (cos (w * t1) - cos (w * t0)) / w.

Definition a0_closed (T : R) (segs : list segment) : R :=
  (2 / T) * Rsum (map const_term segs).

Definition a_closed (T : R) (segs : list segment) (n : Z) : R :=
  (2 / T) * Rsum (map (cos_term (omega T n)) segs).

Definition b_closed (T : R) (segs : list segment) (n : Z) : R :=
  (2 / T) * Rsum (map (sin_term (omega T n)) segs).

(** The series [a0/2 + sum_n (a_n cos (w_n t') + b_n sin (w_n t'))] over the
    numbered coefficient pairs, at the reduced time [t']. *)
Definition partial_sum (T a0 t' : R) (terms : list (Z * (R * R))) : R :=
  fold_left
    (fun s '(n, (a_n, b_n)) =>
       s + (a_n * cos (omega T n * t') + b_n * sin (omega T n * t')))
    terms (a0 / 2).

(** ** Tilings and pointwise sums of segment lists *)

(** [chain V a b segs]: the segments of [segs] follow one another from [a]
    to [b] without gap or overlap, each of positive width and of value [V]. *)
Inductive chain (V : R) : R -> R -> list segment -> Prop :=
| chain_nil : forall a, chain V a a []
| chain_cons : forall a m b rest,
    a < m -> chain V m b rest -> chain V a b ((a, m, V) :: rest).

(** The segments, in any order, tile one period starting at some origin and
    the function is [V] on all of them. *)
Definition tiles_constant (T V : R) (segs : list segment) : Prop :=
  exists origin sorted,
    Permutation segs sorted /\ chain V origin (origin + T) sorted.

(** Two segment lists over the same segmentation: the same intervals in the
    same order. *)
Definition same_segmentation (f g : list segment) : Prop :=
  Forall2 (fun '(s0, s1, _) '(t0, t1, _) => s0 = t0 /\ s1 = t1) f g.

(** The pointwise sum of two functions given over the same segmentation. *)
Definition add_segments (f g : list segment) : list segment :=
  map (fun '((t0, t1, v), (_, _, u)) => (t0, t1, v + u)) (combine f g).

(** The element-wise sum of two coefficient sequences. *)
Definition add_coefficients (xs ys : list R) : list R :=
  map (fun '(x, y) => x + y) (combine xs ys).

From Stdlib Require Import Sorted.

(** ** Transformations of segment lists *)

(** The function multiplied by the constant [c]. *)
Definition scale_segments (c : R) (segs : list segment) : list segment :=
  map (fun '(t0, t1, v) => (t0, t1, c * v)) segs.

(** The segments on which the function is not zero. *)
Definition drop_zero (segs : list segment) : list segment :=
  filter (fun '(_, _, v) => if Req_dec_T v 0 then false else true) segs.

(** The sum of the absolute values of the segments. *)
Definition total_magnitude (segs : list segment) : R :=
  Rsum (map (fun '(_, _, v) => Rabs v) segs).

(** The sum of the absolute values of the coefficient pairs [reconstruct]
    uses. *)
Definition coefficient_magnitude (a_list b_list : list R) : R :=
  Rsum (map (fun '(a_n, b_n) => Rabs a_n + Rabs b_n) (Py.zip a_list b_list)).

(** One term of the series: harmonic [n] with coefficients [a_n] and [b_n] at
    the time [t']. *)
Definition harmonic_term (T t' : R) : Z * (R * R) -> R :=
  fun '(n, (a_n, b_n)) =>
    a_n * cos (omega T n * t') + b_n * sin (omega T n * t').

(** The time [reconstruct] evaluates the series at. *)
Definition reduced_time (T t : R) : R := t - IZR (Zfloor (t / T)) * T.

(** ** The scripts around the analysis

    [main] of [fourier_piston.py] and the plotting scripts raise more
    exceptions than the analysis functions do: [IndexError] from
    [SEGMENTS[0]], [SystemExit], [FileNotFoundError], [AttributeError] and
    the [OverflowError] of an integer that does not fit the number it is
    converted to.  The exceptions of the analysis are embedded with
    [Builtin]. *)

Inductive exception : Type :=
| Builtin (e : exn)
| IndexError
| AttributeError
| OverflowError
| FileNotFoundError (msg : string)
| SystemExit (msg : string).

Inductive outcome (A : Type) : Type :=
| Returns (a : A)
| Raises (e : exception).

Arguments Returns {A} a.
Arguments Raises {A} e.

Definition and_then {A B : Type} (m : outcome A) (k : A -> outcome B)
  : outcome B :=
  match m with
  | Returns a => k a
  | Raises e => Raises e
  end.

Notation "x <-- m ;; k" := (and_then m (fun x => k))
  (at level 61, m at next level, right associativity).
Notation "' p <-- m ;; k" := (and_then m (fun x => match x with p => k end))
  (at level 61, p pattern, m at next level, right associativity).

(** A call of an analysis function from a script. *)
Definition call {A : Type} (m : result A) : outcome A :=
  match m with
  | Ok a => Returns a
  | Raise e => Raises (Builtin e)
  end.

(** A [for] loop of a script, with an accumulator. *)
Fixpoint for_in {A S : Type} (body : S -> A -> outcome S) (items : list A)
  (s : S) : outcome S :=
  match items with
  | [] => Returns s
  | x :: rest => s' <-- body s x ;; for_in body rest s'
  end.

(** A [for] loop that prints one line per item: the lines printed, in
    order, and the exception that ended the loop, if one did.  The lines
    printed before an exception stay printed. *)
Fixpoint print_each {A B : Type} (line : A -> outcome B) (items : list A)
  : list B * option exception :=
  match items with
  | [] => ([], None)
  | x :: rest =>
      match line x with
      | Raises e => ([], Some e)
      | Returns b =>
          let '(printed, ending) := print_each line rest in
          (b :: printed, ending)
      end
  end.

(** ** The sample table of [main]

    With [--show-series], [main] prints one line per sample time: the time,
    the value of the piecewise function there and the value of the series.
    The lines are modelled by the three numbers they show. *)

Section Sample_table.

Variable T : R.
Variable SEGMENTS : list segment.

(** The search for the segment that contains [t]: the first one in list
    order with [t0 <= t < t1], [None] when the loop ends without [break]. *)
Fixpoint find_segment (segs : list segment) (t : R) : option R :=
  match segs with
  | [] => None
  | (t0, t1, v) :: rest =>
      if Rle_dec t0 t then
        if Rlt_dec t t1 then Some v else find_segment rest t
      else find_segment rest t
  end.

(** [orig]: the value found, or [SEGMENTS[0][2]] when no segment contains
    [t]. *)
Definition original_value (t : R) : outcome R :=
  match find_segment SEGMENTS t with
  | Some v => Returns v
  | None =>
      match SEGMENTS with
      | (_, _, v) :: _ => Returns v
      | [] => Raises IndexError
      end
  end.

(** One line of the table: [(t, orig, val)] for the sample number [i]. *)
Definition sample_line (samples : Z) (a0 : R) (a_list b_list : list R)
  (i : Z) : outcome (R * R * R) :=
  t <-- call (Py.truediv (IZR i * T) (IZR (samples - 1))) ;;
  val <-- call (reconstruct T t a0 a_list b_list) ;;
  orig <-- original_value t ;;
  Returns (t, orig, val).

Definition sample_table (samples : Z) (a0 : R) (a_list b_list : list R)
  : list (R * R * R) * option exception :=
  print_each (sample_line samples a0 a_list b_list) (Py.range 0 samples).

End Sample_table.

(** [contiguous a b segs]: the segments follow one another from [a] to [b]
    without gap or overlap, each of positive width; the values are free. *)
Inductive contiguous : R -> R -> list segment -> Prop :=
| contiguous_nil : forall a, contiguous a a []
| contiguous_cons : forall a m b v rest,
    a < m -> contiguous m b rest -> contiguous a b ((a, m, v) :: rest).

(** The segments, in any order, tile the interval from [a] to [b]. *)
Definition tiles (a b : R) (segs : list segment) : Prop :=
  exists sorted, Permutation segs sorted /\ contiguous a b sorted.

(** ** The coefficient lines of [main]

    [main] prints one line [n,a_n,b_n] per coefficient pair and, with
    [--export], writes the same rows to the CSV file: both loops run over
    [enumerate(zip(a_list, b_list), start=1)]. *)
Definition coefficient_lines (a_list b_list : list R) : list (Z * (R * R)) :=
  Py.enumerate (Py.zip a_list b_list) 1.

(** ** Snapshot files and the library functions of the plotting scripts

    The simulator writes one CSV file per snapshot.  The scripts read them
    with [csv.DictReader]: a file is modelled by what the reader yields, its
    header and its rows.  The file system is a function from paths to files,
    [None] where there is no file. *)

(** A row of a [DictReader]: the cell under each column of the header,
    [None] under a column the row is too short to fill. *)
Definition csv_row : Type := string -> option string.

Record csv_file : Type := {
  fieldnames : option (list string);
  data_rows : list csv_row
}.

(** [required.issubset(names)]. *)
Definition issubset (required names : list string) : bool :=
  forallb (fun c => existsb (String.eqb c) names) required.

(** The five columns of a snapshot. *)
Definition snapshot_columns : list string :=
  ["time"; "idx"; "rho"; "vel"; "pres"]%string.

(** [open(path)] on a path without a file. *)
Definition no_such_file (path : string) : exception :=
  FileNotFoundError ("[Errno 2] No such file or directory: '" ++ path ++ "'").

(** [arr[order]] with an integer array [order]: the elements of [arr] at
    the positions listed, [IndexError] for a position out of range. *)
Fixpoint take {A : Type} (arr : list A) (order : list nat)
  : outcome (list A) :=
  match order with
  | [] => Returns []
  | i :: rest =>
      match nth_error arr i with
      | None => Raises IndexError
      | Some x => xs <-- take arr rest ;; Returns (x :: xs)
      end
  end.

(** What [np.argsort] promises about the order it returns, whatever the
    sorting algorithm and the order it leaves equal keys in: it lists every
    position once and the keys taken in that order are ascending. *)
Definition is_argsort {K : Type} (le : K -> K -> Prop) (keys : list K)
  (order : list nat) : Prop :=
  Permutation order (seq 0 (List.length keys))
  /\ exists sorted, take keys order = Returns sorted /\ Sorted le sorted.

(** [list.sort(key=...)] with float keys: the stable sort, by insertion. *)
Fixpoint insert_by_key {A : Type} (key : A -> R) (x : A) (sorted : list A)
  : list A :=
  match sorted with
  | [] => [x]
  | y :: rest =>
      if Rlt_dec (key y) (key x) then y :: insert_by_key key x rest
      else x :: y :: rest
  end.

Definition sort_by_key {A : Type} (key : A -> R) (items : list A) : list A :=
  fold_right (insert_by_key key) [] items.

(** An [argsort] that satisfies [is_argsort]: the positions, sorted stably
    by their keys. *)
Definition stable_argsort {K : Type} (to_R : K -> R) (keys : list K)
  : list nat :=
  map snd
    (sort_by_key (fun p => to_R (fst p))
       (combine keys (seq 0 (List.length keys)))).

(** ** [plot_pres0.py] *)

Module Plot_pres0.

Section Script.

(** The built-ins [int] and [float] on a cell, and [repr] of a header. *)
Variable int : option string -> result Z.
Variable float : option string -> result R.
Variable repr : option (list string) -> string.
(** The file system, and the sorted result of the [glob] in
    [list_snapshot_files]. *)
Variable disk : string -> option csv_file.
Variable list_snapshot_files : string -> list string.
(** [np.argsort] on an array of floats. *)
Variable argsort : list R -> list nat.

(** The loop of [read_pres0_from_csv] over the rows. *)
Fixpoint first_idx0 (rows : list csv_row) : outcome (option (R * R)) :=
  match rows with
  | [] => Returns None
  | row :: rest =>
      match int (row "idx"%string) with
      | Raise _ => first_idx0 rest
      | Ok idx =>
          if (idx =? 0)%Z then
            t <-- call (float (row "time"%string)) ;;
            p0 <-- call (float (row "pres"%string)) ;;
            Returns (Some (t, p0))
          else first_idx0 rest
      end
  end.

Definition read_pres0_from_csv (path : string) : outcome (option (R * R)) :=
  match disk path with
  | None => Raises (no_such_file path)
  | Some f =>
      let names := match fieldnames f with Some l => l | None => [] end in
      if match names with [] => true | _ => false end
         || negb (issubset snapshot_columns names)
      then
        Raises (Builtin (ValueError
                  ("CSV " ++ path ++ " missing required columns: "
                   ++ repr (fieldnames f))))
      else first_idx0 (data_rows f)
  end.

Definition collect_series (build_dir : string) : outcome (list R * list R) :=
  '(ts, ps) <-- for_in
                  (fun '(ts, ps) fp =>
                     res <-- read_pres0_from_csv fp ;;
                     match res with
                     | None => Returns (ts, ps)
                     | Some (t, p0) => Returns (ts ++ [t], ps ++ [p0])
                     end)
                  (list_snapshot_files build_dir) ([], []) ;;
  match ts with
  | [] =>
      Raises (SystemExit
                ("No pres[0] data found in " ++ build_dir
                 ++ ". Ensure snapshots exist and include idx==0."))
  | _ :: _ =>
      let arr := Py.zip ts ps in
      arr' <-- take arr (argsort (map fst arr)) ;;
      Returns (map fst arr', map snd arr')
  end.

(** The points the files contribute, in the order the files are read: one
    point for each file that has a row of index 0. *)
Definition found_points (files : list string) : list (R * R) :=
  flat_map
    (fun fp =>
       match read_pres0_from_csv fp with
       | Returns (Some point) => [point]
       | _ => []
       end)
    files.

(** A row the search passes over: its index does not parse or is not 0. *)
Definition passed_over (row : csv_row) : Prop :=
  match int (row "idx"%string) with
  | Ok idx => idx <> 0%Z
  | Raise _ => True
  end.

End Script.

End Plot_pres0.

(** ** The row loop of the snapshot readers

    [load_snapshot] of [visualizations.py] and [read_snapshot] of
    [plot_field_xt.py] have the same loop over the rows: five cells parsed
    and appended to five lists, the first cell that does not parse ending
    the loop with the exception of [float] or [int]. *)

Definition columns : Type := list R * list Z * list R * list R * list R.

Definition read_columns (int : option string -> result Z)
  (float : option string -> result R) (rows : list csv_row)
  : outcome columns :=
  for_in
    (fun '(times, idxs, rhos, vels, press) row =>
       t <-- call (float (row "time"%string)) ;;
       i <-- call (int (row "idx"%string)) ;;
       r <-- call (float (row "rho"%string)) ;;
       v <-- call (float (row "vel"%string)) ;;
       p <-- call (float (row "pres"%string)) ;;
       Returns (times ++ [t], idxs ++ [i], rhos ++ [r], vels ++ [v],
                press ++ [p]))
    rows ([], [], [], [], []).

(** What one row holds once its five cells are parsed, in the order the
    loop parses them: time, index, density, velocity, pressure. *)
Definition record : Type := R * Z * R * R * R.

Definition record_time (x : record) : R := let '(t, _, _, _, _) := x in t.
Definition record_idx (x : record) : Z := let '(_, i, _, _, _) := x in i.
Definition record_rho (x : record) : R := let '(_, _, r, _, _) := x in r.
Definition record_vel (x : record) : R := let '(_, _, _, v, _) := x in v.
Definition record_pres (x : record) : R := let '(_, _, _, _, p) := x in p.

Definition parse_row (int : option string -> result Z)
  (float : option string -> result R) (row : csv_row) : outcome record :=
  t <-- call (float (row "time"%string)) ;;
  i <-- call (int (row "idx"%string)) ;;
  r <-- call (float (row "rho"%string)) ;;
  v <-- call (float (row "vel"%string)) ;;
  p <-- call (float (row "pres"%string)) ;;
  Returns (t, i, r, v, p).

(** All the rows parsed, or the exception of the first cell that does not
    parse. *)
Fixpoint parse_rows (int : option string -> result Z)
  (float : option string -> result R) (rows : list csv_row)
  : outcome (list record) :=
  match rows with
  | [] => Returns []
  | row :: rest =>
      x <-- parse_row int float row ;;
      xs <-- parse_rows int float rest ;;
      Returns (x :: xs)
  end.

Definition columns_of (records : list record) : columns :=
  (map record_time records, map record_idx records, map record_rho records,
   map record_vel records, map record_pres records).

(** [np.asarray(idxs, dtype=int)]: the indices as an array of 64-bit
    integers, the integers of an array where C's [long] has 64 bits.  An
    index that does not fit raises [OverflowError]. *)
Definition fits_int64 (i : Z) : bool :=
  ((- 2 ^ 63 <=? i) && (i <? 2 ^ 63))%Z.

Definition asarray_int (idxs : list Z) : outcome (list Z) :=
  if forallb fits_int64 idxs then Returns idxs else Raises OverflowError.

(** [np.nanmin] and [np.nanmax] of an array with a first element. *)
Definition array_min (x : R) (rest : list R) : R := fold_left Rmin rest x.
Definition array_max (x : R) (rest : list R) : R := fold_left Rmax rest x.

(** What it means for a pair of optional bounds to be the least and the
    greatest of the values: no bound when there is no value, and otherwise
    two of the values that enclose them all. *)
Definition bounds_of (values : list R) (bounds : option R * option R) : Prop :=
  match values with
  | [] => bounds = (None, None)
  | _ :: _ =>
      exists lo hi,
        bounds = (Some lo, Some hi)
        /\ In lo values /\ In hi values
        /\ Forall (fun x => lo <= x <= hi) values
  end.

(** ** [vispy/visualizations.py] *)

Module Visualizations.

Record Snapshot : Type := {
  time : R;
  idx : list Z;
  rho : list R;
  vel : list R;
  pres : list R
}.

Section Script.

Variable int : option string -> result Z.
Variable float : option string -> result R.
(** [repr] of the header, and of the set [expected] in the message of
    [load_snapshot]. *)
Variable repr : option (list string) -> string.
Variable repr_expected : string.
Variable disk : string -> option csv_file.

Definition load_snapshot (csv_path : string) : outcome Snapshot :=
  match disk csv_path with
  | None => Raises (FileNotFoundError ("Snapshot CSV not found: " ++ csv_path))
  | Some f =>
      let names := match fieldnames f with Some l => l | None => [] end in
      if negb (issubset names snapshot_columns
               && issubset snapshot_columns names)
         && negb (issubset snapshot_columns names)
      then
        Raises (Builtin (ValueError
                  ("CSV header must include " ++ repr_expected ++ ", got "
                   ++ repr (fieldnames f))))
      else
        '(times, idxs, rhos, vels, press) <--
          read_columns int float (data_rows f) ;;
        let t := last times 0 in
        idx_arr <-- asarray_int idxs ;;
        Returns {| time := t;
                   idx := idx_arr;
                   rho := rhos;
                   vel := vels;
                   pres := press |}
  end.

(** [getattr(snap, field)] followed by the use of [.size]: the three float
    arrays, the index array, and [AttributeError] for every other name -
    [time] is a float and has no [size]. *)
Definition getattr_array (snap : Snapshot) (field : string)
  : outcome (list R) :=
  if (field =? "rho")%string then Returns (rho snap)
  else if (field =? "vel")%string then Returns (vel snap)
  else if (field =? "pres")%string then Returns (pres snap)
  else if (field =? "idx")%string then Returns (map IZR (idx snap))
  else Raises AttributeError.

Definition compute_minmax_over_files (files : list (string * R))
  (field : string) : outcome (option R * option R) :=
  for_in
    (fun '(vmin, vmax) '(path, _) =>
       snap <-- load_snapshot path ;;
       data <-- getattr_array snap field ;;
       match data with
       | [] => Returns (vmin, vmax)
       | x :: rest =>
           let dmin := array_min x rest in
           let dmax := array_max x rest in
           Returns
             (Some (match vmin with None => dmin | Some m => Rmin m dmin end),
              Some (match vmax with None => dmax | Some m => Rmax m dmax end))
       end)
    files (None, None).

(** The values of the field in all the files, file after file; nothing for
    a file that cannot be read. *)
Definition field_values (files : list (string * R)) (field : string)
  : list R :=
  flat_map
    (fun '(path, _) =>
       match snap <-- load_snapshot path ;; getattr_array snap field with
       | Returns data => data
       | Raises _ => []
       end)
    files.

End Script.

End Visualizations.

(** ** [plot_field_xt.py] *)

(** The fields [build_xt_field] knows. *)
Definition known_field (field : string) : Prop :=
  field = "rho"%string \/ field = "vel"%string \/ field = "pres"%string.

(** [np.array_equal] on two index arrays. *)
Fixpoint array_equal (xs ys : list Z) : bool :=
  match xs, ys with
  | [], [] => true
  | x :: xs', y :: ys' => (x =? y)%Z && array_equal xs' ys'
  | _, _ => false
  end.

Module Plot_field_xt.

Section Script.

Variable int : option string -> result Z.
Variable float : option string -> result R.
Variable repr : option (list string) -> string.
Variable disk : string -> option csv_file.
(** The result of the [glob] of [list_snapshot_files], sorted by
    modification time. *)
Variable list_snapshot_files : string -> list string.
(** [np.argsort] on an array of integers. *)
Variable argsort : list Z -> list nat.
(** The message of [np.vstack] for rows of different lengths. *)
Variable vstack_message : list (list R) -> string.

Definition read_snapshot (path : string)
  : outcome (R * list Z * list R * list R * list R) :=
  match disk path with
  | None => Raises (no_such_file path)
  | Some f =>
      let names := match fieldnames f with Some l => l | None => [] end in
      if match names with [] => true | _ => false end
         || negb (issubset snapshot_columns names)
      then
        Raises (Builtin (ValueError
                  ("CSV " ++ path ++ " missing required columns: "
                   ++ repr (fieldnames f))))
      else
        '(times, idxs, rhos, vels, press) <--
          read_columns int float (data_rows f) ;;
        match times with
        | [] =>
            Raises (Builtin (ValueError ("CSV " ++ path ++ " has no data rows")))
        | _ :: _ =>
            let t := last times 0 in
            idx_arr <-- asarray_int idxs ;;
            let order := argsort idx_arr in
            idx_arr <-- take idx_arr order ;;
            rho_arr <-- take rhos order ;;
            vel_arr <-- take vels order ;;
            pres_arr <-- take press order ;;
            Returns (t, idx_arr, rho_arr, vel_arr, pres_arr)
        end
  end.

(** [np.vstack] of a list of rows. *)
Definition vstack (arrays : list (list R)) : outcome (list (list R)) :=
  match arrays with
  | [] =>
      Raises (Builtin (ValueError "need at least one array to concatenate"))
  | first :: rest =>
      if forallb (fun row => List.length row =? List.length first)%nat rest
      then Returns arrays
      else Raises (Builtin (ValueError (vstack_message arrays)))
  end.

Definition build_xt_field (build_dir field : string) (NX : Z)
  : outcome (list R * list Z * list (list R)) :=
  let files := list_snapshot_files build_dir in
  match files with
  | [] => Raises (SystemExit ("No snapshot CSV found under " ++ build_dir))
  | _ :: _ =>
      '(snapshots, x_idx_ref) <--
        for_in
          (fun '(snapshots, x_idx_ref) path =>
             '(t, idx_arr, rho_arr, vel_arr, pres_arr) <-- read_snapshot path ;;
             x_idx_ref' <--
               match x_idx_ref with
               | None => Returns (Some idx_arr)
               | Some ref =>
                   if negb (List.length idx_arr =? List.length ref)%nat
                      || negb (array_equal idx_arr ref)
                   then
                     Raises
                       (SystemExit
                          ("Snapshot " ++ path
                           ++ " has different spatial sampling (idx set) than previous files; "
                           ++ "consider resampling or adjusting output stride in main.c."))
                   else Returns (Some ref)
               end ;;
             if (field =? "rho")%string then
               Returns (snapshots ++ [(t, rho_arr)], x_idx_ref')
             else if (field =? "vel")%string then
               Returns (snapshots ++ [(t, vel_arr)], x_idx_ref')
             else if (field =? "pres")%string then
               Returns (snapshots ++ [(t, pres_arr)], x_idx_ref')
             else
               Raises (Builtin (ValueError
                         "field must be one of 'rho', 'vel', 'pres'")))
          files ([], None) ;;
      let sorted := sort_by_key fst snapshots in
      let times := map fst sorted in
      F <-- vstack (map snd sorted) ;;
      match x_idx_ref with
      | None => Raises AttributeError
      | Some x_idx => Returns (times, x_idx, F)
      end
  end.

(** The array of a snapshot that the field names, if it names one. *)
Definition select_field (field : string) (rho_arr vel_arr pres_arr : list R)
  : option (list R) :=
  if (field =? "rho")%string then Some rho_arr
  else if (field =? "vel")%string then Some vel_arr
  else if (field =? "pres")%string then Some pres_arr
  else None.

(** The rows the files contribute to the grid, in the order the files are
    read: the time of each snapshot with its array of the field. *)
Definition field_rows (field : string) (files : list string)
  : list (R * list R) :=
  flat_map
    (fun path =>
       match read_snapshot path with
       | Returns (t, _, rho_arr, vel_arr, pres_arr) =>
           match select_field field rho_arr vel_arr pres_arr with
           | Some values => [(t, values)]
           | None => []
           end
       | Raises _ => []
       end)
    files.

End Script.

End Plot_field_xt.

(** ** The analysis on binary64

    What the interpreter executes: a Python [float] is an IEEE 754 binary64
    number and every operation rounds to nearest, ties to even.  The
    functions of [fourier_piston.py] are embedded a second time over the
    primitive floats, whose operations are those of the processor, so that
    a call on concrete numbers evaluates to the very float the script
    returns.  The real-number embedding above is the idealisation of this
    one and the two are compared in the claims.

    The exceptions are those of the real embedding and two more, which only
    exist here: [OverflowError] for an integer too large for a float, and
    the [ValueError] of [math.sin] and [math.cos] at an infinite argument.

    [math.sin] and [math.cos] are those of the C library and are not fixed
    by IEEE 754: they are parameters of the embedding, as is the text of
    the message of their [ValueError], which differs between versions of
    the interpreter. *)

From Stdlib Require Floats.

Module B64.

Import Floats.
Local Open Scope float_scope.

(** A segment is the tuple [(start, end, value)]. *)
Definition segment : Type := float * float * float.

(** [math.pi], the float nearest to the number: 3.141592653589793. *)
Definition pi : float := 0x1.921fb54442d18p+1.

(** [x / y] on floats: only a zero divisor raises, of either sign. *)
Definition truediv (x y : float) : outcome float :=
  if y =? 0 then Raises (Builtin ZeroDivisionError) else Returns (x / y).

(** C's [fmod], which is exact: the remainder of [|x|] by [|y|] with the
    sign of [x], computed on the integer significands brought to one
    exponent.  It is NaN for an infinite [x], a zero [y] and a NaN
    operand, and [x] itself for an infinite [y]. *)
Definition fmod (x y : float) : float :=
  match Prim2SF x, Prim2SF y with
  | S754_nan, _ | _, S754_nan => nan
  | S754_infinity _, _ => nan
  | _, S754_zero _ => nan
  | S754_zero _, _ => x
  | S754_finite _ _ _, S754_infinity _ => x
  | S754_finite sx mx ex, S754_finite _ my ey =>
      let e := Z.min ex ey in
      let r := ((Zpos mx * 2 ^ (ex - e)) mod (Zpos my * 2 ^ (ey - e)))%Z in
      match r with
      | Z0 => if sx then neg_zero else zero
      | _ =>
          SF2Prim (binary_normalize prec emax (if sx then (- r)%Z else r) e
                     false)
      end
  end.

(** [x % y] on floats (CPython's [float_rem]): [fmod], then a non-zero
    remainder of the other sign than the divisor has the divisor added - an
    addition that rounds - and a zero remainder takes the sign of the
    divisor. *)
Definition float_rem (vx wx : float) : outcome float :=
  if wx =? 0 then Raises (Builtin ZeroDivisionError)
  else
    let m := fmod vx wx in
    if negb (m =? 0) then
      if xorb (wx <? 0) (m <? 0) then Returns (m + wx) else Returns m
    else Returns (if get_sign wx then neg_zero else zero).

(** The integers a float operation accepts as its other operand: the
    conversion rounds to nearest, and those that round to a float beyond
    the largest finite one do not convert. *)
Definition converts (n : Z) : bool := (Z.abs n <? 2 ^ 1024 - 2 ^ 970)%Z.

(** The float nearest to an integer that converts. *)
Definition float_of (n : Z) : float :=
  SF2Prim (binary_normalize prec emax n 0 false).

(** The conversion of an [int] operand. *)
Definition of_int (n : Z) : outcome float :=
  if converts n then Returns (float_of n) else Raises OverflowError.

(** A float operand that may be [None]. *)
Definition to_float (n : option Z) : outcome float :=
  match n with
  | Some z => of_int z
  | None => Raises (Builtin TypeError)
  end.

(** The angular frequency as the script computes it from the converted
    index: [2.0 * math.pi * n / T]. *)
Definition omega (T n' : float) : float := 2 * pi * n' / T.

Section Module_globals.

(** The sine and the cosine of the C library, and the message of the
    [ValueError] for the argument it is raised at. *)
Variable libm_sin : float -> float.
Variable libm_cos : float -> float.
Variable domain_error : float -> string.

(** [math.sin] and [math.cos]: an infinite argument raises [ValueError],
    a NaN gives a NaN. *)
Definition math_sin (x : float) : outcome float :=
  if is_infinity x then Raises (Builtin (ValueError (domain_error x)))
  else Returns (libm_sin x).

Definition math_cos (x : float) : outcome float :=
  if is_infinity x then Raises (Builtin (ValueError (domain_error x)))
  else Returns (libm_cos x).

Variable T : float.
Variable SEGMENTS : list segment.

Definition piecewise_integral (value t0 t1 : float) (func : func_tag)
  : outcome float :=
  let '(kind, n) := func in
  if (kind =? "const")%string then
    Returns (value * (t1 - t0))
  else
    n' <-- to_float n ;;
    w <-- truediv (2 * pi * n') T ;;
    if (kind =? "cos")%string then
      s1 <-- math_sin (w * t1) ;;
      s0 <-- math_sin (w * t0) ;;
      truediv (value * (s1 - s0)) w
    else if (kind =? "sin")%string then
      c1 <-- math_cos (w * t1) ;;
      c0 <-- math_cos (w * t0) ;;
      truediv (- value * (c1 - c0)) w
    else
      Raises (Builtin (ValueError ("Unknown func kind: " ++ kind))).

Definition compute_a0 : outcome float :=
  total <-- for_in
              (fun total '(t0, t1, v) =>
                 x <-- piecewise_integral v t0 t1 ("const"%string, None) ;;
                 Returns (total + x))
              SEGMENTS 0 ;;
  c <-- truediv 2 T ;;
  Returns (c * total).

(** The inner loop of [compute_an_bn]. *)
Definition harmonic_sums (n : Z) : outcome (float * float) :=
  for_in
    (fun '(a_n, b_n) '(t0, t1, v) =>
       x <-- piecewise_integral v t0 t1 ("cos"%string, Some n) ;;
       y <-- piecewise_integral v t0 t1 ("sin"%string, Some n) ;;
       Returns (a_n + x, b_n + y))
    SEGMENTS (0, 0).

Definition compute_an_bn (N : Z) : outcome (list float * list float) :=
  for_in
    (fun '(a_list, b_list) n =>
       '(a_n, b_n) <-- harmonic_sums n ;;
       ca <-- truediv 2 T ;;
       cb <-- truediv 2 T ;;
       Returns (a_list ++ [a_n * ca], b_list ++ [b_n * cb]))
    (Py.range 1 (N + 1)) ([], []).

Definition reconstruct (t a0 : float) (a_list b_list : list float)
  : outcome float :=
  t' <-- float_rem t T ;;
  for_in
    (fun s '(n, (a_n, b_n)) =>
       n' <-- of_int n ;;
       w <-- truediv (2 * pi * n') T ;;
       c <-- math_cos (w * t') ;;
       s' <-- math_sin (w * t') ;;
       Returns (s + (a_n * c + b_n * s')))
    (Py.enumerate (Py.zip a_list b_list) 1) (a0 / 2).

End Module_globals.

(** The values the module binds. *)
Definition T : float := 60.

Definition SEGMENTS : list segment :=
  [ (0, 10, 3); (10, 30, 0); (30, 40, 1); (40, 60, 0) ].

End B64.
(** ** A small build directory, for the examples

    Cells that parse and cells that do not, and a handful of snapshot
    files. *)

Definition example_int (cell : option string) : result Z :=
  match cell with
  | None => Raise TypeError
  | Some s =>
      if (s =? "0")%string then Ok 0%Z
      else if (s =? "1")%string then Ok 1%Z
      else if (s =? "2")%string then Ok 2%Z
      else if (s =? "9223372036854775808")%string then Ok (2 ^ 63)%Z
      else Raise (ValueError
                    ("invalid literal for int() with base 10: '" ++ s ++ "'"))
  end.

Definition example_float (cell : option string) : result R :=
  match cell with
  | None => Raise TypeError
  | Some s =>
      if (s =? "0.5")%string then Ok 0.5
      else if (s =? "1.5")%string then Ok 1.5
      else if (s =? "2.0")%string then Ok 2
      else if (s =? "3.0")%string then Ok 3
      else if (s =? "7.0")%string then Ok 7
      else Raise (ValueError
                    ("could not convert string to float: '" ++ s ++ "'"))
  end.

Definition example_repr (names : option (list string)) : string :=
  match names with
  | None => "None"
  | Some l =>
      ("[" ++ String.concat ", " (map (fun c => "'" ++ c ++ "'") l) ++ "]")%string
  end.

Definition example_row (time_cell idx_cell rho_cell vel_cell pres_cell : string)
  : csv_row :=
  fun column =>
    if (column =? "time")%string then Some time_cell
    else if (column =? "idx")%string then Some idx_cell
    else if (column =? "rho")%string then Some rho_cell
    else if (column =? "vel")%string then Some vel_cell
    else if (column =? "pres")%string then Some pres_cell
    else None.

Definition example_disk (path : string) : option csv_file :=
  if (path =? "build/snapshot_1.csv")%string then
    Some {| fieldnames := Some snapshot_columns;
            data_rows := [ example_row "1.5" "x" "2.0" "0.5" "7.0";
                           example_row "1.5" "1" "2.0" "0.5" "7.0";
                           example_row "1.5" "0" "1.5" "0.5" "3.0" ] |}
  else if (path =? "build/snapshot_2.csv")%string then
    Some {| fieldnames := Some ["idx"; "time"; "pres"; "vel"; "rho"; "note"]%string;
            data_rows := [ example_row "0.5" "0" "1.5" "0.5" "2.0";
                           example_row "0.5" "1" "2.0" "0.5" "7.0" ] |}
  else if (path =? "build/snapshot_3.csv")%string then
    Some {| fieldnames := Some snapshot_columns;
            data_rows := [ example_row "2.0" "1" "2.0" "0.5" "7.0";
                           example_row "2.0" "2" "3.0" "0.5" "7.0" ] |}
  else if (path =? "build/snapshot_4.csv")%string then
    Some {| fieldnames := Some ["time"; "idx"; "vel"; "pres"]%string;
            data_rows := [ example_row "0.5" "0" "" "0.5" "2.0" ] |}
  else if (path =? "build/snapshot_5.csv")%string then
    Some {| fieldnames := Some snapshot_columns;
            data_rows := [ example_row "soon" "0" "1.5" "0.5" "2.0";
                           example_row "0.5" "0" "1.5" "0.5" "2.0" ] |}
  else if (path =? "build/snapshot_6.csv")%string then
    Some {| fieldnames := Some snapshot_columns;
            data_rows := [ example_row "1.5" "2" "3.0" "0.5" "7.0";
                           example_row "1.5" "0" "1.5" "0.5" "3.0";
                           example_row "1.5" "1" "2.0" "0.5" "2.0" ] |}
  else if (path =? "build/snapshot_7.csv")%string then
    Some {| fieldnames := Some snapshot_columns;
            data_rows := [ example_row "0.5" "0" "2.0" "0.5" "7.0";
                           example_row "0.5" "1" "2.0" "0.5" "7.0";
                           example_row "0.5" "2" "3.0" "0.5" "7.0" ] |}
  else if (path =? "build/snapshot_8.csv")%string then
    Some {| fieldnames := Some snapshot_columns;
            data_rows := [ example_row "0.5" "0" "2.0" "0.5" "7.0";
                           example_row "0.5" "9223372036854775808" "2.0"
                             "0.5" "7.0" ] |}
  else if (path =? "build/empty.csv")%string then
    Some {| fieldnames := Some snapshot_columns; data_rows := [] |}
  else None.

Definition example_listing (build_dir : string) : list string :=
  if (build_dir =? "build")%string then
    ["build/snapshot_1.csv"; "build/snapshot_2.csv"; "build/snapshot_3.csv"]%string
  else if (build_dir =? "late")%string then
    ["build/snapshot_3.csv"]%string
  else if (build_dir =? "broken")%string then
    ["build/snapshot_1.csv"; "build/snapshot_4.csv"; "build/snapshot_2.csv"]%string
  else if (build_dir =? "grid")%string then
    ["build/snapshot_6.csv"; "build/snapshot_7.csv"]%string
  else if (build_dir =? "mixed")%string then
    ["build/snapshot_6.csv"; "build/snapshot_3.csv"]%string
  else [].

(** The message of [np.vstack] is not needed for the examples. *)
Definition example_vstack_message (arrays : list (list R)) : string :=
  "all the input array dimensions except for the concatenation axis must match exactly".

(** * Properties *)

(** ** The result monad and the Python operations *)

Lemma truediv_ok (x y : R) : y <> 0 -> Py.truediv x y = Ok (x / y).
Proof.
  intros Hy. unfold Py.truediv.
  destruct (Req_dec_T y 0) as [E | _]; [contradiction | reflexivity].
Qed.

Lemma truediv_zero (x : R) : Py.truediv x 0 = Raise ZeroDivisionError.
Proof.
  unfold Py.truediv.
  destruct (Req_dec_T 0 0) as [_ | N]; [reflexivity | now destruct N].
Qed.

(** A loop whose body never raises is a left fold. *)
Lemma for_each_pure {A S : Type} (body : S -> A -> result S) (g : S -> A -> S)
  (items : list A) :
  (forall s x, In x items -> body s x = Ok (g s x)) ->
  forall s, for_each body items s = Ok (fold_left g items s).
Proof.
  induction items as [| x rest IH]; intros Hbody s; simpl.
  - reflexivity.
  - rewrite Hbody by (left; reflexivity). simpl.
    apply IH. intros s' y Hy. apply Hbody. right. exact Hy.
Qed.

(** A loop whose body raises the same exception on every item raises it as
    soon as there is an item. *)
Lemma for_each_raise {A S : Type} (body : S -> A -> result S) (e : exn)
  (x : A) (rest : list A) (s : S) :
  body s x = Raise e -> for_each body (x :: rest) s = Raise e.
Proof. intros H. simpl. rewrite H. reflexivity. Qed.

Lemma range_nil (start stop : Z) : (stop <= start)%Z -> Py.range start stop = [].
Proof.
  intros H. unfold Py.range.
  replace (Z.to_nat (stop - start)) with 0%nat by lia. reflexivity.
Qed.

Lemma range_cons (start stop : Z) :
  (start < stop)%Z -> Py.range start stop = start :: Py.range (start + 1) stop.
Proof.
  intros H. unfold Py.range.
  replace (Z.to_nat (stop - start)) with (S (Z.to_nat (stop - (start + 1))))
    by lia.
  simpl. f_equal.
  - lia.
  - rewrite <- seq_shift, map_map. apply map_ext. intros i. lia.
Qed.

Lemma range_length (start stop : Z) :
  List.length (Py.range start stop) = Z.to_nat (stop - start).
Proof. unfold Py.range. now rewrite length_map, length_seq. Qed.

Lemma range_In (start stop n : Z) :
  In n (Py.range start stop) <-> (start <= n < stop)%Z.
Proof.
  unfold Py.range. rewrite in_map_iff. split.
  - intros [i [<- Hi]]. apply in_seq in Hi. lia.
  - intros H. exists (Z.to_nat (n - start)). split; [lia |].
    apply in_seq. lia.
Qed.

Lemma range_nth (start stop : Z) (i : nat) (d : Z) :
  (i < Z.to_nat (stop - start))%nat ->
  nth i (Py.range start stop) d = (start + Z.of_nat i)%Z.
Proof.
  intros Hi. unfold Py.range.
  rewrite nth_indep with (d' := (start + Z.of_nat 0)%Z)
    by (now rewrite length_map, length_seq).
  rewrite map_nth with (f := fun i => (start + Z.of_nat i)%Z).
  rewrite seq_nth by exact Hi. reflexivity.
Qed.

(** ** Sums *)

Lemma fold_left_Rplus_acc (xs : list R) (a : R) :
  fold_left Rplus xs a = a + Rsum xs.
Proof.
  unfold Rsum. revert a.
  induction xs as [| x rest IH]; intros a; simpl.
  - lra.
  - rewrite IH, (IH (0 + x)). lra.
Qed.

Lemma Rsum_nil : Rsum [] = 0.
Proof. reflexivity. Qed.

Lemma Rsum_cons (x : R) (xs : list R) : Rsum (x :: xs) = x + Rsum xs.
Proof.
  unfold Rsum at 1. simpl. rewrite fold_left_Rplus_acc. lra.
Qed.

Lemma Rsum_perm (xs ys : list R) : Permutation xs ys -> Rsum xs = Rsum ys.
Proof.
  induction 1 as [| x xs ys _ IH | x y xs | xs ys zs _ IH1 _ IH2].
  - reflexivity.
  - rewrite !Rsum_cons, IH. reflexivity.
  - rewrite !Rsum_cons. lra.
  - now rewrite IH1.
Qed.

(** ** The per-segment integrals *)

Lemma omega_neq_0 (T : R) (n : Z) : T <> 0 -> n <> 0%Z -> omega T n <> 0.
Proof.
  intros HT Hn Hw.
  assert (E : 2 * PI * IZR n = 0).
  { replace (2 * PI * IZR n) with (omega T n * T)
      by (unfold omega; field; exact HT).
    rewrite Hw. ring. }
  apply Rmult_integral in E as [E | E].
  - pose proof PI_RGT_0. lra.
  - apply eq_IZR_R0 in E. contradiction.
Qed.

Lemma piecewise_integral_const (T value t0 t1 : R) (n : option Z) :
  piecewise_integral T value t0 t1 ("const"%string, n)
  = Ok (const_term (t0, t1, value)).
Proof. reflexivity. Qed.

Lemma piecewise_integral_cos (T value t0 t1 : R) (n : Z) :
  T <> 0 -> n <> 0%Z ->
  piecewise_integral T value t0 t1 ("cos"%string, Some n)
  = Ok (cos_term (omega T n) (t0, t1, value)).
Proof.
  intros HT Hn. unfold piecewise_integral. simpl.
  rewrite truediv_ok by exact HT. simpl.
  fold (omega T n). apply truediv_ok. now apply omega_neq_0.
Qed.

Lemma piecewise_integral_sin (T value t0 t1 : R) (n : Z) :
  T <> 0 -> n <> 0%Z ->
  piecewise_integral T value t0 t1 ("sin"%string, Some n)
  = Ok (sin_term (omega T n) (t0, t1, value)).
Proof.
  intros HT Hn. unfold piecewise_integral. simpl.
  rewrite truediv_ok by exact HT. simpl.
  fold (omega T n). apply truediv_ok. now apply omega_neq_0.
Qed.

(** With [T = 0] the angular frequency cannot be computed, whatever the
    kind (other than ['const']) and the index. *)
Lemma piecewise_integral_period_0 (value t0 t1 : R) (kind : string) (n : Z) :
  kind <> "const"%string ->
  piecewise_integral 0 value t0 t1 (kind, Some n) = Raise ZeroDivisionError.
Proof.
  intros Hk. unfold piecewise_integral.
  apply String.eqb_neq in Hk. rewrite Hk. simpl.
  rewrite truediv_zero. reflexivity.
Qed.

(** The angular frequency is computed before the kind is looked at: an
    index [None] raises [TypeError] for every kind other than ['const']. *)
Lemma piecewise_integral_index_None (T value t0 t1 : R) (kind : string) :
  kind <> "const"%string ->
  piecewise_integral T value t0 t1 (kind, None) = Raise TypeError.
Proof.
  intros Hk. unfold piecewise_integral.
  apply String.eqb_neq in Hk. rewrite Hk. reflexivity.
Qed.

(** The index 0 is not a harmonic: [w] is 0 and the division by it raises. *)
Lemma piecewise_integral_index_0 (T value t0 t1 : R) :
  T <> 0 ->
  piecewise_integral T value t0 t1 ("cos"%string, Some 0%Z)
  = Raise ZeroDivisionError
  /\ piecewise_integral T value t0 t1 ("sin"%string, Some 0%Z)
     = Raise ZeroDivisionError.
Proof.
  intros HT. unfold piecewise_integral. simpl.
  rewrite truediv_ok by exact HT. simpl.
  replace (2 * PI * 0 / T) with 0 by (field; exact HT).
  now rewrite !truediv_zero.
Qed.

(** ** The coefficient loops *)

Lemma compute_a0_closed (T : R) (segs : list segment) :
  T <> 0 -> compute_a0 T segs = Ok (a0_closed T segs).
Proof.
  intros HT. unfold compute_a0.
  rewrite for_each_pure with (g := fun total seg => total + const_term seg).
  - simpl. rewrite truediv_ok by exact HT. simpl.
    unfold a0_closed. f_equal. f_equal.
    rewrite <- (Rplus_0_l (Rsum _)), <- fold_left_Rplus_acc.
    generalize 0. induction segs as [| seg rest IH]; intros a; simpl.
    + reflexivity.
    + apply IH.
  - intros s [[t0 t1] v] _. reflexivity.
Qed.

Lemma compute_a0_period_0 (segs : list segment) :
  compute_a0 0 segs = Raise ZeroDivisionError.
Proof.
  unfold compute_a0.
  rewrite for_each_pure with (g := fun total seg => total + const_term seg).
  - simpl. rewrite truediv_zero. reflexivity.
  - intros s [[t0 t1] v] _. reflexivity.
Qed.

Lemma fold_left_pair_sums (f g : segment -> R) (segs : list segment) (a b : R) :
  fold_left (fun '(x, y) seg => (x + f seg, y + g seg)) segs (a, b)
  = (a + Rsum (map f segs), b + Rsum (map g segs)).
Proof.
  revert a b. induction segs as [| seg rest IH]; intros a b; simpl.
  - rewrite Rsum_nil. f_equal; lra.
  - rewrite IH, !Rsum_cons. f_equal; lra.
Qed.

Lemma harmonic_sums_closed (T : R) (segs : list segment) (n : Z) :
  T <> 0 -> n <> 0%Z ->
  harmonic_sums T segs n
  = Ok (Rsum (map (cos_term (omega T n)) segs),
        Rsum (map (sin_term (omega T n)) segs)).
Proof.
  intros HT Hn. unfold harmonic_sums.
  rewrite for_each_pure
    with (g := fun '(x, y) seg =>
                 (x + cos_term (omega T n) seg, y + sin_term (omega T n) seg)).
  - rewrite fold_left_pair_sums. f_equal. f_equal; lra.
  - intros [x y] [[t0 t1] v] _.
    rewrite piecewise_integral_cos, piecewise_integral_sin by assumption.
    reflexivity.
Qed.

(** One round of the outer loop of [compute_an_bn]. *)
Lemma compute_an_bn_loop (T : R) (segs : list segment) (ns : list Z) :
  T <> 0 -> Forall (fun n => n <> 0%Z) ns ->
  forall a_list b_list,
    for_each
      (fun '(a_list, b_list) n =>
         '(a_n, b_n) <- harmonic_sums T segs n ;;
         ca <- Py.truediv 2 T ;;
         cb <- Py.truediv 2 T ;;
         Ok (a_list ++ [a_n * ca], b_list ++ [b_n * cb]))
      ns (a_list, b_list)
    = Ok (a_list ++ map (a_closed T segs) ns,
          b_list ++ map (b_closed T segs) ns).
Proof.
  intros HT Hns. rewrite (truediv_ok 2 T HT). cbn [bind].
  induction Hns as [| n rest Hn _ IH]; intros a_list b_list.
  - simpl. now rewrite !app_nil_r.
  - cbn [for_each]. rewrite harmonic_sums_closed by assumption.
    cbn [bind]. rewrite IH, <- !app_assoc. simpl.
    unfold a_closed, b_closed. do 4 f_equal; apply Rmult_comm.
Qed.

Lemma compute_an_bn_closed (T : R) (segs : list segment) (N : Z) :
  T <> 0 ->
  compute_an_bn T segs N
  = Ok (map (a_closed T segs) (Py.range 1 (N + 1)),
        map (b_closed T segs) (Py.range 1 (N + 1))).
Proof.
  intros HT. unfold compute_an_bn.
  rewrite compute_an_bn_loop.
  - reflexivity.
  - exact HT.
  - apply Forall_forall. intros n Hn. apply range_In in Hn. lia.
Qed.

Lemma compute_an_bn_no_harmonic (T : R) (segs : list segment) (N : Z) :
  (N <= 0)%Z -> compute_an_bn T segs N = Ok ([], []).
Proof.
  intros HN. unfold compute_an_bn. rewrite range_nil by lia. reflexivity.
Qed.

Lemma harmonic_sums_period_0 (segs : list segment) (n : Z) :
  segs <> [] -> harmonic_sums 0 segs n = Raise ZeroDivisionError.
Proof.
  destruct segs as [| [[t0 t1] v] rest]; [congruence | intros _].
  unfold harmonic_sums. apply for_each_raise.
  rewrite piecewise_integral_period_0 by discriminate. reflexivity.
Qed.

Lemma compute_an_bn_period_0 (segs : list segment) (N : Z) :
  (1 <= N)%Z -> compute_an_bn 0 segs N = Raise ZeroDivisionError.
Proof.
  intros HN. unfold compute_an_bn. rewrite range_cons by lia.
  apply for_each_raise.
  destruct segs as [| seg rest].
  - simpl. rewrite truediv_zero. reflexivity.
  - rewrite harmonic_sums_period_0 by discriminate. reflexivity.
Qed.

(** ** Float modulo *)

(** For a non-zero divisor, [%] is the floored remainder
    [x - floor(x / y) * y], whatever the signs. *)
Lemma float_rem_floor (x y : R) :
  y <> 0 -> Py.float_rem x y = Ok (x - IZR (Zfloor (x / y)) * y).
Proof.
  intros Hy. unfold Py.float_rem, Py.fmod, Py.trunc.
  destruct (Req_dec_T y 0) as [E | _]; [contradiction |].
  set (q := x / y).
  assert (Hx : x = q * y) by (unfold q; field; exact Hy).
  pose proof (Zfloor_bound q) as [Hf1 Hf2].
  pose proof (Zceil_bound q) as [Hc1 Hc2].
  destruct (Rle_dec 0 q) as [Hq | Hq].
  - destruct (Req_dec_T (x - IZR (Zfloor q) * y) 0) as [Hm | Hm].
    + now rewrite Hm.
    + destruct (Rlt_dec y 0) as [Hy0 | Hy0];
        destruct (Rlt_dec (x - IZR (Zfloor q) * y) 0) as [Hm0 | Hm0];
        simpl; try reflexivity; exfalso; nra.
  - destruct (Req_dec_T (x - IZR (Zceil q) * y) 0) as [Hm | Hm].
    + assert (Hqc : q = IZR (Zceil q)) by nra.
      assert (Hfc : Zfloor q = Zceil q) by (apply Zfloor_eq; lra).
      rewrite Hfc, Hm. reflexivity.
    + assert (Hqc : q <> IZR (Zceil q)).
      { intros Hqc. apply Hm. rewrite Hx at 1. rewrite <- Hqc. ring. }
      assert (Hfc : Zfloor q = (Zceil q - 1)%Z).
      { apply Zfloor_eq. rewrite minus_IZR. lra. }
      rewrite Hfc, minus_IZR.
      destruct (Rlt_dec y 0) as [Hy0 | Hy0];
        destruct (Rlt_dec (x - IZR (Zceil q) * y) 0) as [Hm0 | Hm0];
        simpl; try (f_equal; ring); exfalso; nra.
Qed.

(** For a positive divisor the remainder is in [[0, y)]. *)
Lemma floored_rem_range (x y : R) :
  0 < y -> 0 <= x - IZR (Zfloor (x / y)) * y < y.
Proof.
  intros Hy.
  set (q := x / y).
  assert (Hx : x = q * y) by (unfold q; field; lra).
  pose proof (Zfloor_bound q) as [Hf1 Hf2].
  split; nra.
Qed.

Lemma floored_rem_shift (x y : R) (k : Z) :
  y <> 0 ->
  (x + IZR k * y) - IZR (Zfloor ((x + IZR k * y) / y)) * y
  = x - IZR (Zfloor (x / y)) * y.
Proof.
  intros Hy.
  replace ((x + IZR k * y) / y) with (x / y + IZR k) by (field; exact Hy).
  rewrite Zfloor_addz, plus_IZR. ring.
Qed.

Lemma floored_rem_small (x y : R) :
  0 <= x < y -> x - IZR (Zfloor (x / y)) * y = x.
Proof.
  intros [H0 Hy].
  assert (Hq : Zfloor (x / y) = 0%Z).
  { apply Zfloor_eq. simpl.
    set (q := x / y).
    assert (Hx : x = q * y) by (unfold q; field; lra).
    split; nra. }
  rewrite Hq. simpl. ring.
Qed.

(** ** Evaluation of the series *)

Lemma reconstruct_closed (T t a0 : R) (a_list b_list : list R) :
  T <> 0 ->
  reconstruct T t a0 a_list b_list
  = Ok (partial_sum T a0 (t - IZR (Zfloor (t / T)) * T)
          (Py.enumerate (Py.zip a_list b_list) 1)).
Proof.
  intros HT. unfold reconstruct.
  rewrite float_rem_floor by exact HT. cbn [bind].
  apply for_each_pure.
  intros s [n [a_n b_n]] _.
  rewrite truediv_ok by exact HT. reflexivity.
Qed.

Lemma reconstruct_period_0 (t a0 : R) (a_list b_list : list R) :
  reconstruct 0 t a0 a_list b_list = Raise ZeroDivisionError.
Proof.
  unfold reconstruct, Py.float_rem.
  destruct (Req_dec_T 0 0) as [_ | N]; [reflexivity | now destruct N].
Qed.

(** ** Constant functions *)

Lemma omega_period (T : R) (n : Z) (a : R) :
  T <> 0 -> (0 <= n)%Z ->
  omega T n * (a + T) = omega T n * a + 2 * INR (Z.to_nat n) * PI.
Proof.
  intros HT Hn. rewrite INR_IZR_INZ, Z2Nat.id by exact Hn.
  unfold omega. field. exact HT.
Qed.

(** Along a chain each of the three sums telescopes. *)
Lemma chain_const_sum (V a b : R) (segs : list segment) :
  chain V a b segs -> Rsum (map const_term segs) = V * (b - a).
Proof.
  induction 1 as [a | a m b rest _ _ IH]; simpl.
  - rewrite Rsum_nil. ring.
  - rewrite Rsum_cons, IH. ring.
Qed.

Lemma chain_cos_sum (V w a b : R) (segs : list segment) :
  chain V a b segs ->
  Rsum (map (cos_term w) segs) = V * (sin (w * b) - sin (w * a)) / w.
Proof.
  induction 1 as [a | a m b rest _ _ IH]; simpl.
  - rewrite Rsum_nil. unfold Rdiv. ring.
  - rewrite Rsum_cons, IH. unfold Rdiv. ring.
Qed.

Lemma chain_sin_sum (V w a b : R) (segs : list segment) :
  chain V a b segs ->
  Rsum (map (sin_term w) segs) = - V * (cos (w * b) - cos (w * a)) / w.
Proof.
  induction 1 as [a | a m b rest _ _ IH]; simpl.
  - rewrite Rsum_nil. unfold Rdiv. ring.
  - rewrite Rsum_cons, IH. unfold Rdiv. ring.
Qed.

Lemma tiles_sum (f : segment -> R) (segs sorted : list segment) :
  Permutation segs sorted -> Rsum (map f segs) = Rsum (map f sorted).
Proof. intros HP. apply Rsum_perm, Permutation_map, HP. Qed.

Lemma tiles_a0 (T V : R) (segs : list segment) :
  T <> 0 -> tiles_constant T V segs -> a0_closed T segs = 2 * V.
Proof.
  intros HT (origin & sorted & HP & HC). unfold a0_closed.
  rewrite (tiles_sum _ _ _ HP), (chain_const_sum _ _ _ _ HC).
  field. exact HT.
Qed.

Lemma tiles_a_n (T V : R) (segs : list segment) (n : Z) :
  T <> 0 -> (0 <= n)%Z -> tiles_constant T V segs -> a_closed T segs n = 0.
Proof.
  intros HT Hn (origin & sorted & HP & HC). unfold a_closed.
  rewrite (tiles_sum _ _ _ HP), (chain_cos_sum _ _ _ _ _ HC).
  rewrite omega_period, sin_period by assumption.
  unfold Rdiv. ring.
Qed.

Lemma tiles_b_n (T V : R) (segs : list segment) (n : Z) :
  T <> 0 -> (0 <= n)%Z -> tiles_constant T V segs -> b_closed T segs n = 0.
Proof.
  intros HT Hn (origin & sorted & HP & HC). unfold b_closed.
  rewrite (tiles_sum _ _ _ HP), (chain_sin_sum _ _ _ _ _ HC).
  rewrite omega_period, cos_period by assumption.
  unfold Rdiv. ring.
Qed.

Lemma map_constant {A B : Type} (f : A -> B) (c : B) (xs : list A) :
  (forall x, In x xs -> f x = c) -> map f xs = repeat c (List.length xs).
Proof.
  induction xs as [| x rest IH]; intros H; simpl.
  - reflexivity.
  - rewrite H by (left; reflexivity). f_equal.
    apply IH. intros y Hy. apply H. right. exact Hy.
Qed.

(** ** Sums of functions *)

Lemma add_segments_sum (f g : list segment) (term : segment -> R) :
  (forall t0 t1 v u, term (t0, t1, v + u) = term (t0, t1, v) + term (t0, t1, u)) ->
  same_segmentation f g ->
  Rsum (map term (add_segments f g)) = Rsum (map term f) + Rsum (map term g).
Proof.
  intros Hterm. unfold add_segments.
  induction 1 as [| [[s0 s1] v] [[t0 t1] u] f g [<- <-] _ IH]; simpl.
  - rewrite Rsum_nil. ring.
  - rewrite !Rsum_cons, IH, Hterm. ring.
Qed.

Lemma const_term_add (t0 t1 v u : R) :
  const_term (t0, t1, v + u) = const_term (t0, t1, v) + const_term (t0, t1, u).
Proof. simpl. ring. Qed.

Lemma cos_term_add (w t0 t1 v u : R) :
  cos_term w (t0, t1, v + u) = cos_term w (t0, t1, v) + cos_term w (t0, t1, u).
Proof. simpl. unfold Rdiv. ring. Qed.

Lemma sin_term_add (w t0 t1 v u : R) :
  sin_term w (t0, t1, v + u) = sin_term w (t0, t1, v) + sin_term w (t0, t1, u).
Proof. simpl. unfold Rdiv. ring. Qed.

Lemma a0_closed_add (T : R) (f g : list segment) :
  same_segmentation f g ->
  a0_closed T (add_segments f g) = a0_closed T f + a0_closed T g.
Proof.
  intros H. unfold a0_closed.
  rewrite add_segments_sum by (exact const_term_add || exact H). ring.
Qed.

Lemma a_closed_add (T : R) (f g : list segment) (n : Z) :
  same_segmentation f g ->
  a_closed T (add_segments f g) n = a_closed T f n + a_closed T g n.
Proof.
  intros H. unfold a_closed.
  rewrite add_segments_sum by (apply cos_term_add || exact H). ring.
Qed.

Lemma b_closed_add (T : R) (f g : list segment) (n : Z) :
  same_segmentation f g ->
  b_closed T (add_segments f g) n = b_closed T f n + b_closed T g n.
Proof.
  intros H. unfold b_closed.
  rewrite add_segments_sum by (apply sin_term_add || exact H). ring.
Qed.

Lemma map_add_coefficients {A : Type} (h f g : A -> R) (xs : list A) :
  (forall x, h x = f x + g x) ->
  map h xs = add_coefficients (map f xs) (map g xs).
Proof.
  intros H. unfold add_coefficients.
  induction xs as [| x rest IH]; simpl.
  - reflexivity.
  - now rewrite H, IH.
Qed.

(** ** The piston acceleration *)

Lemma omega_piston_1 : omega T 1 = PI / 30.
Proof. unfold omega, T. field. Qed.

(** The first harmonic of the module's function: [a_1 = sqrt 3 / pi] and
    [b_1 = 1 / pi]. *)
Example first_harmonic_piston :
  compute_an_bn T SEGMENTS 1 = Ok ([sqrt 3 / PI], [1 / PI]).
Proof.
  rewrite compute_an_bn_closed by (unfold T; lra).
  change (Py.range 1 (1 + 1)) with [1%Z].
  unfold a_closed, b_closed, SEGMENTS, Rsum. simpl.
  rewrite omega_piston_1.
  replace (PI / 30 * 0) with 0 by field.
  replace (PI / 30 * 10) with (PI / 3) by field.
  replace (PI / 30 * 30) with PI by field.
  replace (PI / 30 * 40) with (PI / 3 + PI) by field.
  replace (PI / 30 * 60) with (2 * PI) by field.
  rewrite neg_sin, neg_cos, sin_0, cos_0, sin_PI, cos_PI, sin_2PI, cos_2PI,
    sin_PI3, cos_PI3.
  pose proof PI_neq0 as HP.
  unfold T. f_equal. f_equal; f_equal; field; exact HP.
Qed.

(** * The claims *)

(** ** Coefficients *)



(** C2. [compute_a0] returns [a0 = (2/T) * sum value * (end - start)]; for
    the period 60 and the four segments of the module it returns
    [(2/60) * 40 = 1.333333...], so the DC term [a0 / 2] is [0.666666...]. *)
Theorem dc_term_value :
  (forall (T0 : R) (segs : list segment),
      0 < T0 ->
      compute_a0 T0 segs
      = Ok (2 / T0 * Rsum (map (fun '(t0, t1, v) => v * (t1 - t0)) segs)))
  /\ compute_a0 T SEGMENTS = Ok (2 / 60 * 40)
  /\ 1.333333 < 2 / 60 * 40 < 1.333334
  /\ 0.666666 < 2 / 60 * 40 / 2 < 0.666667.
Proof.
  split; [| split; [| split; lra]].
  - intros T0 segs HT0. rewrite compute_a0_closed by lra. reflexivity.
  - unfold T. rewrite compute_a0_closed by lra. f_equal.
    unfold a0_closed, SEGMENTS, Rsum. simpl. lra.
Qed.

Lemma dc_term_value_witness :
  compute_a0 60 [(0, 15, 2); (15, 60, -1)]
  = Ok (2 / 60
        * Rsum (map (fun '(t0, t1, v) => v * (t1 - t0))
                  [(0, 15, 2); (15, 60, -1)])).
Proof.
  apply (proj1 dc_term_value 60 [(0, 15, 2); (15, 60, -1)]). lra.
Defined.

Section Constant_function_on_binary64.

Import Floats.
Local Open Scope float_scope.

(** C4, as stated, fails on the floats of the interpreter.  With the period
    [60.0] and the value [V = 3.7] ([0x1.d99999999999ap+1]) on the tiling
    [[40, 60)], [[0, 10)], [[10, 40)], [compute_a0] returns
    [7.3999999999999995] ([0x1.d999999999999p+2]), whatever the C library
    computes for the sine and the cosine, and [2 V] is
    [7.4] ([0x1.d99999999999ap+2]): the three products and the three
    additions round. *)
Lemma constant_dc_term_rounds :
  (forall libm_sin libm_cos domain_error,
      B64.compute_a0 libm_sin libm_cos domain_error 60
        [ (40, 60, 0x1.d99999999999ap+1); (0, 10, 0x1.d99999999999ap+1);
          (10, 40, 0x1.d99999999999ap+1) ]
      = Returns 0x1.d999999999999p+2)
  /\ 2 * 0x1.d99999999999ap+1 = 0x1.d99999999999ap+2
  /\ (0x1.d999999999999p+2 =? 0x1.d99999999999ap+2) = false.
Proof.
  split; [intros; vm_compute; reflexivity |].
  split; vm_compute; reflexivity.
Qed.

End Constant_function_on_binary64.

(** C4, amended. In exact real arithmetic, for a period [T > 0] and
    segments that tile one period, in any order, with the single value [V]
    on all of them, [compute_a0] returns [2 V] and [compute_an_bn] returns
    [a_n = 0] and [b_n = 0] for every harmonic [n] in [1..N]. *)
Theorem constant_has_no_harmonics (T V : R) (segs : list segment) (N : Z) :
  0 < T ->
  tiles_constant T V segs ->
  compute_a0 T segs = Ok (2 * V)
  /\ compute_an_bn T segs N
     = Ok (repeat 0 (Z.to_nat N), repeat 0 (Z.to_nat N)).
Proof.
  intros HT Htiles.
  assert (HT0 : T <> 0) by lra.
  split.
  - rewrite compute_a0_closed by exact HT0. f_equal.
    now apply tiles_a0.
  - rewrite compute_an_bn_closed by exact HT0.
    assert (HL : List.length (Py.range 1 (N + 1)) = Z.to_nat N)
      by (rewrite range_length; f_equal; lia).
    rewrite <- HL. f_equal. f_equal.
    + apply map_constant. intros n Hn. apply range_In in Hn.
      apply tiles_a_n with (V := V); [exact HT0 | lia | exact Htiles].
    + apply map_constant. intros n Hn. apply range_In in Hn.
      apply tiles_b_n with (V := V); [exact HT0 | lia | exact Htiles].
Qed.

Lemma constant_has_no_harmonics_witness :
  compute_a0 60 [(40, 60, 5); (0, 10, 5); (10, 40, 5)] = Ok (2 * 5)
  /\ compute_an_bn 60 [(40, 60, 5); (0, 10, 5); (10, 40, 5)] 3
     = Ok (repeat 0 (Z.to_nat 3), repeat 0 (Z.to_nat 3)).
Proof.
  apply (constant_has_no_harmonics 60 5
           [(40, 60, 5); (0, 10, 5); (10, 40, 5)] 3).
  - lra.
  - exists 0, [(0, 10, 5); (10, 40, 5); (40, 60, 5)]. split.
    + apply (Permutation_cons_app [(0, 10, 5); (10, 40, 5)] [] (40, 60, 5)).
      apply Permutation_refl.
    + replace (0 + 60) with 60 by lra.
      repeat (apply chain_cons; [lra |]). apply chain_nil.
Defined.

Section Linearity_on_binary64.

Import Floats.
Local Open Scope float_scope.

(** C5, as stated, fails on the floats of the interpreter.  With the period
    [60.0], the functions of value [2.0] and of value [3.0] on the one segment
    [[0, 10)] have the DC coefficients [0.6666666666666666]
    ([0x1.5555555555555p-1]) and [1.0], of sum [1.6666666666666665]
    ([0x1.aaaaaaaaaaaaap+0]); their pointwise sum, of value [5.0], has
    [1.6666666666666667] ([0x1.aaaaaaaaaaaabp+0]). *)
Lemma dc_term_not_additive :
  (forall libm_sin libm_cos domain_error,
      B64.compute_a0 libm_sin libm_cos domain_error 60 [(0, 10, 2)]
      = Returns 0x1.5555555555555p-1
      /\ B64.compute_a0 libm_sin libm_cos domain_error 60 [(0, 10, 3)]
         = Returns 1
      /\ B64.compute_a0 libm_sin libm_cos domain_error 60 [(0, 10, 2 + 3)]
         = Returns 0x1.aaaaaaaaaaaabp+0)
  /\ 0x1.5555555555555p-1 + 1 = 0x1.aaaaaaaaaaaaap+0
  /\ (0x1.aaaaaaaaaaaabp+0 =? 0x1.aaaaaaaaaaaaap+0) = false.
Proof.
  split; [intros; repeat split; vm_compute; reflexivity |].
  split; vm_compute; reflexivity.
Qed.

End Linearity_on_binary64.

(** C5, amended. In exact real arithmetic, for two piecewise-constant
    functions over the same period [T > 0] and the same segmentation, each
    coefficient of the pointwise sum - [a0] and every [a_n] and [b_n] - is
    the sum of the corresponding coefficients of the two functions. *)
Theorem coefficients_linear (T : R) (f g : list segment) (N : Z) :
  0 < T ->
  same_segmentation f g ->
  exists a0_f a0_g a_f b_f a_g b_g,
    compute_a0 T f = Ok a0_f
    /\ compute_a0 T g = Ok a0_g
    /\ compute_an_bn T f N = Ok (a_f, b_f)
    /\ compute_an_bn T g N = Ok (a_g, b_g)
    /\ List.length a_f = Z.to_nat N /\ List.length a_g = Z.to_nat N
    /\ List.length b_f = Z.to_nat N /\ List.length b_g = Z.to_nat N
    /\ compute_a0 T (add_segments f g) = Ok (a0_f + a0_g)
    /\ compute_an_bn T (add_segments f g) N
       = Ok (add_coefficients a_f a_g, add_coefficients b_f b_g).
Proof.
  intros HT Hsame.
  assert (HT0 : T <> 0) by lra.
  exists (a0_closed T f), (a0_closed T g),
    (map (a_closed T f) (Py.range 1 (N + 1))),
    (map (b_closed T f) (Py.range 1 (N + 1))),
    (map (a_closed T g) (Py.range 1 (N + 1))),
    (map (b_closed T g) (Py.range 1 (N + 1))).
  rewrite !compute_a0_closed, !compute_an_bn_closed by exact HT0.
  rewrite !length_map, range_length.
  repeat (split; [reflexivity || (f_equal; lia) |]).
  split.
  - f_equal. now apply a0_closed_add.
  - f_equal. f_equal; apply map_add_coefficients; intros n.
    + now apply a_closed_add.
    + now apply b_closed_add.
Qed.

Lemma coefficients_linear_witness :
  exists a0_f a0_g a_f b_f a_g b_g,
    compute_a0 T SEGMENTS = Ok a0_f
    /\ compute_a0 T [(0, 10, 1); (10, 30, -2); (30, 40, 0); (40, 60, 7)]
       = Ok a0_g
    /\ compute_an_bn T SEGMENTS 2 = Ok (a_f, b_f)
    /\ compute_an_bn T [(0, 10, 1); (10, 30, -2); (30, 40, 0); (40, 60, 7)] 2
       = Ok (a_g, b_g)
    /\ List.length a_f = Z.to_nat 2 /\ List.length a_g = Z.to_nat 2
    /\ List.length b_f = Z.to_nat 2 /\ List.length b_g = Z.to_nat 2
    /\ compute_a0 T
         (add_segments SEGMENTS
            [(0, 10, 1); (10, 30, -2); (30, 40, 0); (40, 60, 7)])
       = Ok (a0_f + a0_g)
    /\ compute_an_bn T
         (add_segments SEGMENTS
            [(0, 10, 1); (10, 30, -2); (30, 40, 0); (40, 60, 7)]) 2
       = Ok (add_coefficients a_f a_g, add_coefficients b_f b_g).
Proof.
  apply (coefficients_linear T SEGMENTS
           [(0, 10, 1); (10, 30, -2); (30, 40, 0); (40, 60, 7)] 2).
  - unfold T. lra.
  - unfold SEGMENTS. repeat (constructor; [split; reflexivity |]).
    constructor.
Defined.

(** ** Evaluation *)

Section Periodicity_on_binary64.

Import Floats.
Local Open Scope float_scope.

(** C3, as stated, fails on the floats of the interpreter.  With the period
    [60.0] of the module, [t = -1e-17] ([-0x1.70ef54646d497p-57]) and
    [k = 1]: [t % T] is [60.0], because the remainder [-1e-17] plus [60.0]
    rounds to [60.0], and [t + k * T] is [60.0], whose remainder is [0.0].
    The series with [a0 = 0], [a_1 = 0] and [b_1 = 1] is then evaluated at
    the angles [6.283185307179586] ([0x1.921fb54442d18p+2]) and [0.0]: with
    the sine and the cosine of any C library that has the values CPython
    shows at these two angles, [reconstruct] returns
    [-2.4492935982947064e-16] ([-0x1.1a62633145c07p-52]) at [t] and [0.0]
    at [t + k * T]. *)
Lemma reconstruct_not_periodic :
  B64.float_rem (-0x1.70ef54646d497p-57) B64.T = Returns 60
  /\ B64.float_rem (-0x1.70ef54646d497p-57 + 1 * B64.T) B64.T = Returns 0
  /\ (forall libm_sin libm_cos domain_error,
        libm_cos 0 = 1 -> libm_sin 0 = 0 ->
        libm_cos 0x1.921fb54442d18p+2 = 1 ->
        libm_sin 0x1.921fb54442d18p+2 = -0x1.1a62633145c07p-52 ->
        B64.reconstruct libm_sin libm_cos domain_error B64.T
          (-0x1.70ef54646d497p-57) 0 [0] [1]
        = Returns (-0x1.1a62633145c07p-52)
        /\ B64.reconstruct libm_sin libm_cos domain_error B64.T
             (-0x1.70ef54646d497p-57 + 1 * B64.T) 0 [0] [1]
           = Returns 0)
  /\ (-0x1.1a62633145c07p-52 =? 0) = false.
Proof.
  split; [vm_compute; reflexivity |].
  split; [vm_compute; reflexivity |].
  split; [| vm_compute; reflexivity].
  intros libm_sin libm_cos domain_error Hc0 Hs0 Hc Hs. split.
  - transitivity
      (Returns (A := float)
         (0 + (0 * libm_cos 0x1.921fb54442d18p+2
               + 1 * libm_sin 0x1.921fb54442d18p+2)));
      [vm_compute; reflexivity |].
    rewrite Hc, Hs. vm_compute. reflexivity.
  - transitivity
      (Returns (A := float) (0 + (0 * libm_cos 0 + 1 * libm_sin 0)));
      [vm_compute; reflexivity |].
    rewrite Hc0, Hs0. vm_compute. reflexivity.
Qed.

End Periodicity_on_binary64.

Section Periodicity.

Import Floats.

(** C3, amended. In exact real arithmetic [reconstruct] is periodic with
    period [T], for every period [T <> 0]: for every series, every time [t]
    and every integer [k], negative ones included, it returns the same
    value at [t] and at [t + k * T].  On the floats of the interpreter what
    is left of this is that [reconstruct] depends on the time through the
    float [t % T] alone: two times with the same float remainder, or the
    same exception of [%], give the same result. *)
Theorem reconstruct_periodic :
  (forall (T t a0 : R) (a_list b_list : list R) (k : Z),
      T <> 0 ->
      exists v,
        reconstruct T t a0 a_list b_list = Ok v
        /\ reconstruct T (t + IZR k * T) a0 a_list b_list = Ok v)
  /\ (forall (libm_sin libm_cos : float -> float)
        (domain_error : float -> string)
        (T t u a0 : float) (a_list b_list : list float),
        B64.float_rem t T = B64.float_rem u T ->
        B64.reconstruct libm_sin libm_cos domain_error T t a0 a_list b_list
        = B64.reconstruct libm_sin libm_cos domain_error T u a0 a_list
            b_list).
Proof.
  split.
  - intros T t a0 a_list b_list k HT. eexists. split.
    + apply reconstruct_closed. exact HT.
    + rewrite reconstruct_closed by exact HT.
      rewrite floored_rem_shift by exact HT. reflexivity.
  - intros libm_sin libm_cos domain_error T t u a0 a_list b_list Hrem.
    unfold B64.reconstruct. now rewrite Hrem.
Qed.

Lemma reconstruct_periodic_witness :
  (exists v,
      reconstruct T (-7.5) (4 / 3) [1; 2] [3; 4] = Ok v
      /\ reconstruct T (-7.5 + IZR (-3) * T) (4 / 3) [1; 2] [3; 4] = Ok v)
  /\ (forall libm_sin libm_cos domain_error,
        B64.reconstruct libm_sin libm_cos domain_error B64.T 61%float
          1%float [1%float] [2%float]
        = B64.reconstruct libm_sin libm_cos domain_error B64.T 1%float
            1%float [1%float] [2%float]).
Proof.
  destruct reconstruct_periodic as [Hreal Hfloat]. split.
  - apply (Hreal T (-7.5) (4 / 3) [1; 2] [3; 4] (-3)%Z). unfold T. lra.
  - intros libm_sin libm_cos domain_error.
    apply (Hfloat libm_sin libm_cos domain_error B64.T 61%float 1%float).
    vm_compute. reflexivity.
Defined.

End Periodicity.

(** C6. For [N = 0], [compute_an_bn] returns two empty sequences, and
    [reconstruct] on the resulting series returns the DC term [a0 / 2] at
    every [t]. *)
Theorem order_zero_dc_only (T : R) (segs : list segment) (t : R) :
  0 < T ->
  exists a0,
    compute_a0 T segs = Ok a0
    /\ compute_an_bn T segs 0 = Ok ([], [])
    /\ reconstruct T t a0 [] [] = Ok (a0 / 2).
Proof.
  intros HT. exists (a0_closed T segs).
  split; [apply compute_a0_closed; lra |].
  split; [apply compute_an_bn_no_harmonic; lia |].
  rewrite reconstruct_closed by lra. reflexivity.
Qed.

Lemma order_zero_dc_only_witness :
  exists a0,
    compute_a0 T SEGMENTS = Ok a0
    /\ compute_an_bn T SEGMENTS 0 = Ok ([], [])
    /\ reconstruct T (-12.25) a0 [] [] = Ok (a0 / 2).
Proof.
  apply (order_zero_dc_only T SEGMENTS (-12.25)). unfold T. lra.
Defined.

Section Reduced_time_on_binary64.

Import Floats.
Local Open Scope float_scope.


End Reduced_time_on_binary64.



(** The reduced time of the witness: [-7.5 % 60] is [52.5]. *)
Lemma float_rem_negative_time : Py.float_rem (-7.5) T = Ok 52.5.
Proof.
  unfold T. rewrite float_rem_floor by lra.
  assert (H : Zfloor (-7.5 / 60) = (-1)%Z) by (apply Zfloor_eq; simpl; lra).
  rewrite H. f_equal. simpl. lra.
Qed.

(** C's [fmod] alone leaves that time negative; the sign adjustment of [%]
    is what brings it into the period. *)
Lemma fmod_negative_time : Py.fmod (-7.5) T = -7.5.
Proof.
  unfold Py.fmod, Py.trunc, T.
  destruct (Rle_dec 0 (-7.5 / 60)) as [H | _]; [lra |].
  assert (H : Zceil (-7.5 / 60) = 0%Z) by (apply Zceil_eq; simpl; lra).
  rewrite H. simpl. lra.
Qed.

(** ** Invalid periods and orders *)




(** C9, as stated, fails: a negative order is accepted and two empty
    sequences are returned. *)
Lemma negative_order_accepted : compute_an_bn T SEGMENTS (-1) = Ok ([], []).
Proof. apply compute_an_bn_no_harmonic. lia. Qed.

(** C9, amended. For every order [N < 0], [compute_an_bn] raises nothing and
    returns two empty coefficient sequences, whatever the period and the
    segments: [range(1, N + 1)] is empty and the loop body never runs. *)
Theorem negative_order_empty (T : R) (segs : list segment) (N : Z) :
  (N < 0)%Z -> compute_an_bn T segs N = Ok ([], []).
Proof. intros HN. apply compute_an_bn_no_harmonic. lia. Qed.

Lemma negative_order_empty_witness : compute_an_bn T SEGMENTS (-5) = Ok ([], []).
Proof. apply (negative_order_empty T SEGMENTS (-5)). lia. Defined.

(** ** Kind tags *)

Section Kind_tags_on_binary64.

Import Floats.
Local Open Scope float_scope.

(** C10, as stated, fails on the floats of the interpreter, in both of its
    parts.  The index is converted to a float before any tag but ['const']
    is looked at: [n = 10 ** 400] does not convert, and an unknown tag as
    well as ['cos'] raise [OverflowError], not [ValueError] and not
    nothing.  And with the valid index [n = 100] and the period [60.0],
    ['cos'] and ['sin'] at [t1 = 2.0 ** 1023] raise the [ValueError] of
    [math.sin] and [math.cos], the product [w * t1] being infinite. *)
Lemma piecewise_integral_other_exceptions :
  B64.converts (10 ^ 400) = false
  /\ (forall libm_sin libm_cos domain_error value t0 t1,
        B64.piecewise_integral libm_sin libm_cos domain_error B64.T
          value t0 t1 ("tan"%string, Some (10 ^ 400)%Z)
        = Raises OverflowError
        /\ B64.piecewise_integral libm_sin libm_cos domain_error B64.T
             value t0 t1 ("cos"%string, Some (10 ^ 400)%Z)
           = Raises OverflowError)
  /\ (forall libm_sin libm_cos domain_error value t0,
        B64.piecewise_integral libm_sin libm_cos domain_error B64.T
          value t0 0x1p+1023 ("cos"%string, Some 100%Z)
        = Raises (Builtin (ValueError (domain_error infinity)))
        /\ B64.piecewise_integral libm_sin libm_cos domain_error B64.T
             value t0 0x1p+1023 ("sin"%string, Some 100%Z)
           = Raises (Builtin (ValueError (domain_error infinity)))).
Proof.
  split; [vm_compute; reflexivity |].
  split; intros; split; vm_compute; reflexivity.
Qed.

End Kind_tags_on_binary64.

Section Kind_tags.

Import Floats.

Variable libm_sin : float -> float.
Variable libm_cos : float -> float.
Variable domain_error : float -> string.

Local Abbreviation piecewise_integral_b64 :=
  (B64.piecewise_integral libm_sin libm_cos domain_error).

(** The two trigonometric tags share everything up to the library function
    they call. *)
Lemma piecewise_integral_b64_cos (T value t0 t1 : float) (n : Z) :
  (T =? 0)%float = false -> B64.converts n = true ->
  piecewise_integral_b64 T value t0 t1 ("cos"%string, Some n)
  = (s1 <-- B64.math_sin libm_sin domain_error
              (B64.omega T (B64.float_of n) * t1)%float ;;
     s0 <-- B64.math_sin libm_sin domain_error
              (B64.omega T (B64.float_of n) * t0)%float ;;
     B64.truediv (value * (s1 - s0))%float (B64.omega T (B64.float_of n))).
Proof.
  intros HT Hn. unfold B64.piecewise_integral, B64.to_float, B64.of_int.
  rewrite Hn. cbn [String.eqb Ascii.eqb Bool.eqb and_then].
  unfold B64.truediv at 1. rewrite HT. reflexivity.
Qed.

Lemma piecewise_integral_b64_sin (T value t0 t1 : float) (n : Z) :
  (T =? 0)%float = false -> B64.converts n = true ->
  piecewise_integral_b64 T value t0 t1 ("sin"%string, Some n)
  = (c1 <-- B64.math_cos libm_cos domain_error
              (B64.omega T (B64.float_of n) * t1)%float ;;
     c0 <-- B64.math_cos libm_cos domain_error
              (B64.omega T (B64.float_of n) * t0)%float ;;
     B64.truediv (- value * (c1 - c0))%float (B64.omega T (B64.float_of n))).
Proof.
  intros HT Hn. unfold B64.piecewise_integral, B64.to_float, B64.of_int.
  rewrite Hn. cbn [String.eqb Ascii.eqb Bool.eqb and_then].
  unfold B64.truediv at 1. rewrite HT. reflexivity.
Qed.

End Kind_tags.

Section Kind_tags_claim.

Import Floats.

(** C10, amended. [piecewise_integral] tests the tag ['const'] alone before
    it converts the index and computes [w = 2.0 * math.pi * n / T].  On the
    floats of the interpreter, for every value and bounds: ['const']
    returns [value * (t1 - t0)] whatever the index; with any other tag an
    integer index that does not convert to a float raises [OverflowError];
    with an index that converts and a period that is not zero, a tag other
    than ['const'], ['cos'] and ['sin'] raises the [ValueError] of the
    unknown kind, and ['cos'] and ['sin'] raise the [ValueError] of
    [math.sin] and [math.cos] when [w * t1] or else [w * t0] is infinite,
    otherwise [ZeroDivisionError] when [w] is zero, and otherwise return
    the quotient.  In exact real arithmetic, with a period [T > 0] and an
    index [n >= 1], the three known tags raise nothing. *)
Theorem piecewise_integral_kinds :
  (forall (libm_sin libm_cos : float -> float)
      (domain_error : float -> string),
      let piecewise_integral_b64 :=
        B64.piecewise_integral libm_sin libm_cos domain_error in
      (forall (T value t0 t1 : float) (n : Z) (kind : string),
          kind <> "const"%string -> B64.converts n = false ->
          piecewise_integral_b64 T value t0 t1 (kind, Some n)
          = Raises OverflowError)
      /\ (forall (T value t0 t1 : float) (n : Z) (kind : string),
            (T =? 0)%float = false -> B64.converts n = true ->
            kind <> "const"%string -> kind <> "cos"%string ->
            kind <> "sin"%string ->
            piecewise_integral_b64 T value t0 t1 (kind, Some n)
            = Raises (Builtin (ValueError ("Unknown func kind: " ++ kind))))
      /\ (forall (T value t0 t1 : float) (n : option Z),
            piecewise_integral_b64 T value t0 t1 ("const"%string, n)
            = Returns (value * (t1 - t0))%float)
      /\ (forall (T value t0 t1 : float) (n : Z),
            (T =? 0)%float = false -> B64.converts n = true ->
            let w := B64.omega T (B64.float_of n) in
            let by_cos := piecewise_integral_b64 T value t0 t1
                            ("cos"%string, Some n) in
            let by_sin := piecewise_integral_b64 T value t0 t1
                            ("sin"%string, Some n) in
            let domain x := Raises (Builtin (ValueError (domain_error x))) in
            (is_infinity (w * t1) = true ->
             by_cos = domain (w * t1)%float
             /\ by_sin = domain (w * t1)%float)
            /\ (is_infinity (w * t1) = false ->
                is_infinity (w * t0) = true ->
                by_cos = domain (w * t0)%float
                /\ by_sin = domain (w * t0)%float)
            /\ (is_infinity (w * t1) = false ->
                is_infinity (w * t0) = false ->
                (w =? 0)%float = true ->
                by_cos = Raises (Builtin ZeroDivisionError)
                /\ by_sin = Raises (Builtin ZeroDivisionError))
            /\ (is_infinity (w * t1) = false ->
                is_infinity (w * t0) = false ->
                (w =? 0)%float = false ->
                by_cos
                = Returns (value * (libm_sin (w * t1) - libm_sin (w * t0))
                           / w)%float
                /\ by_sin
                   = Returns (- value
                              * (libm_cos (w * t1) - libm_cos (w * t0))
                              / w)%float)))
  /\ (forall (T0 value t0 t1 : R) (n : Z) (kind : string),
        0 < T0 -> (1 <= n)%Z ->
        kind = "const"%string \/ kind = "cos"%string \/ kind = "sin"%string ->
        exists r, piecewise_integral T0 value t0 t1 (kind, Some n) = Ok r).
Proof.
  split; [intros libm_sin libm_cos domain_error piecewise_integral_b64;
          subst piecewise_integral_b64; split; [| split; [| split]] |].
  - intros T value t0 t1 n kind Hconst Hn.
    unfold B64.piecewise_integral, B64.to_float, B64.of_int.
    apply String.eqb_neq in Hconst. now rewrite Hconst, Hn.
  - intros T value t0 t1 n kind HT Hn Hconst Hcos Hsin.
    unfold B64.piecewise_integral, B64.to_float, B64.of_int, B64.truediv.
    apply String.eqb_neq in Hconst, Hcos, Hsin.
    rewrite Hconst, Hn. cbn [and_then]. rewrite HT. cbn [and_then].
    now rewrite Hcos, Hsin.
  - intros T value t0 t1 n. reflexivity.
  - intros T value t0 t1 n HT Hn w by_cos by_sin domain.
    subst by_cos by_sin domain.
    rewrite piecewise_integral_b64_cos, piecewise_integral_b64_sin
      by assumption.
    fold w. unfold B64.math_sin, B64.math_cos, B64.truediv.
    split; [| split; [| split]].
    + intros H1. now rewrite H1.
    + intros H1 H0. now rewrite H1, H0.
    + intros H1 H0 Hw. rewrite H1, H0. cbn [and_then]. now rewrite Hw.
    + intros H1 H0 Hw. rewrite H1, H0. cbn [and_then]. now rewrite Hw.
  - intros T0 value t0 t1 n kind HT Hn [-> | [-> | ->]]; eexists.
    + apply piecewise_integral_const.
    + apply piecewise_integral_cos; [lra | lia].
    + apply piecewise_integral_sin; [lra | lia].
Qed.


Lemma piecewise_integral_kinds_witness :
  (forall libm_sin libm_cos domain_error,
      B64.piecewise_integral libm_sin libm_cos domain_error B64.T
        3%float 0%float 10%float ("tan"%string, Some (2 ^ 1024)%Z)
      = Raises OverflowError
      /\ B64.piecewise_integral libm_sin libm_cos domain_error B64.T
           3%float 0%float 10%float ("tan"%string, Some 2%Z)
         = Raises (Builtin (ValueError "Unknown func kind: tan"))
      /\ B64.piecewise_integral libm_sin libm_cos domain_error B64.T
           3%float 0%float 10%float ("cos"%string, Some 2%Z)
         = Returns
             (3 * (libm_sin (B64.omega B64.T 2 * 10)
                   - libm_sin (B64.omega B64.T 2 * 0))
              / B64.omega B64.T 2)%float)
  /\ exists r, piecewise_integral T 3 0 10 ("cos"%string, Some 2%Z) = Ok r.
Proof.
  split.
  - intros libm_sin libm_cos domain_error.
    destruct (proj1 piecewise_integral_kinds libm_sin libm_cos domain_error)
      as (Hover & Hunknown & _ & Hknown).
    split; [| split].
    + apply (Hover B64.T 3%float 0%float 10%float (2 ^ 1024)%Z "tan"%string);
        [discriminate | vm_compute; reflexivity].
    + apply (Hunknown B64.T 3%float 0%float 10%float 2%Z "tan"%string);
        [vm_compute; reflexivity | vm_compute; reflexivity
        | discriminate ..].
    + destruct (Hknown B64.T 3%float 0%float 10%float 2%Z)
        as (_ & _ & _ & Hreturns);
        [vm_compute; reflexivity | vm_compute; reflexivity |].
      apply Hreturns; vm_compute; reflexivity.
  - apply (proj2 piecewise_integral_kinds T 3 0 10 2%Z "cos"%string);
      [unfold T; lra | lia | right; left; reflexivity].
Defined.

End Kind_tags_claim.

(** * Further properties of the analysis *)

(** ** Helper facts *)

Lemma Rsum_app (xs ys : list R) : Rsum (xs ++ ys) = Rsum xs + Rsum ys.
Proof.
  induction xs as [| x rest IH]; simpl.
  - rewrite Rsum_nil. ring.
  - rewrite !Rsum_cons, IH. ring.
Qed.

Lemma range_snoc (start stop : Z) :
  (start <= stop)%Z ->
  Py.range start (stop + 1) = Py.range start stop ++ [stop].
Proof.
  intros H. unfold Py.range.
  replace (Z.to_nat (stop + 1 - start)) with (Z.to_nat (stop - start) + 1)%nat
    by lia.
  rewrite seq_app, map_app. simpl. do 2 f_equal. lia.
Qed.

(** The results of the two coefficient functions are determined by the
    three kinds of sums over the segments. *)
Lemma coefficients_from_sums (T : R) (segs segs' : list segment) :
  Rsum (map const_term segs) = Rsum (map const_term segs') ->
  (forall w, Rsum (map (cos_term w) segs) = Rsum (map (cos_term w) segs')) ->
  (forall w, Rsum (map (sin_term w) segs) = Rsum (map (sin_term w) segs')) ->
  compute_a0 T segs = compute_a0 T segs'
  /\ forall N, compute_an_bn T segs N = compute_an_bn T segs' N.
Proof.
  intros Hc Ha Hb.
  destruct (Req_dec_T T 0) as [-> | HT].
  - split; [now rewrite !compute_a0_period_0 |].
    intros N. destruct (Z_lt_le_dec 0 N) as [HN | HN].
    + rewrite !compute_an_bn_period_0 by lia. reflexivity.
    + rewrite !compute_an_bn_no_harmonic by lia. reflexivity.
  - split.
    + rewrite !compute_a0_closed by exact HT. unfold a0_closed.
      now rewrite Hc.
    + intros N. rewrite !compute_an_bn_closed by exact HT.
      f_equal. f_equal; apply map_ext; intros n.
      * unfold a_closed. now rewrite Ha.
      * unfold b_closed. now rewrite Hb.
Qed.

(** ** Raising the order *)



(** ** The segment list *)

(** X2. The coefficients do not depend on the order in which the segments are
    listed: for every period, zero included, both functions return the same
    result - the same values or the same exception - on a permuted list. *)
Theorem coefficients_order_independent (T : R) (segs segs' : list segment) (N : Z) :
  Permutation segs segs' ->
  compute_a0 T segs = compute_a0 T segs'
  /\ compute_an_bn T segs N = compute_an_bn T segs' N.
Proof.
  intros HP.
  destruct (coefficients_from_sums T segs segs') as [H0 Hn].
  - apply tiles_sum, HP.
  - intros w. apply tiles_sum, HP.
  - intros w. apply tiles_sum, HP.
  - split; [exact H0 | apply Hn].
Qed.

Lemma coefficients_order_independent_witness :
  compute_a0 T [(30, 40, 1); (0, 10, 3)] = compute_a0 T [(0, 10, 3); (30, 40, 1)]
  /\ compute_an_bn T [(30, 40, 1); (0, 10, 3)] 3
     = compute_an_bn T [(0, 10, 3); (30, 40, 1)] 3.
Proof.
  apply (coefficients_order_independent T
           [(30, 40, 1); (0, 10, 3)] [(0, 10, 3); (30, 40, 1)] 3).
  apply perm_swap.
Defined.

(** X3. Cutting a segment in two at any point [m], anywhere in the list,
    changes no coefficient. *)
Theorem split_segment_invariant (T t0 m t1 v : R) (before after : list segment)
  (N : Z) :
  compute_a0 T (before ++ (t0, m, v) :: (m, t1, v) :: after)
  = compute_a0 T (before ++ (t0, t1, v) :: after)
  /\ compute_an_bn T (before ++ (t0, m, v) :: (m, t1, v) :: after) N
     = compute_an_bn T (before ++ (t0, t1, v) :: after) N.
Proof.
  destruct (coefficients_from_sums T
              (before ++ (t0, m, v) :: (m, t1, v) :: after)
              (before ++ (t0, t1, v) :: after)) as [H0 Hn].
  - rewrite !map_app, !Rsum_app. simpl. rewrite !Rsum_cons. ring.
  - intros w. rewrite !map_app, !Rsum_app. simpl. rewrite !Rsum_cons.
    unfold Rdiv. ring.
  - intros w. rewrite !map_app, !Rsum_app. simpl. rewrite !Rsum_cons.
    unfold Rdiv. ring.
  - split; [exact H0 | apply Hn].
Qed.


(** X5. In exact real arithmetic, multiplying the function by a constant
    [c] multiplies [a0] and every [a_n] and [b_n] by [c]. *)
Theorem coefficients_scale (T c : R) (segs : list segment) (N : Z) :
  T <> 0 ->
  exists a0 a_list b_list,
    compute_a0 T segs = Ok a0
    /\ compute_an_bn T segs N = Ok (a_list, b_list)
    /\ compute_a0 T (scale_segments c segs) = Ok (c * a0)
    /\ compute_an_bn T (scale_segments c segs) N
       = Ok (map (Rmult c) a_list, map (Rmult c) b_list).
Proof.
  intros HT.
  assert (Hscale : forall term : segment -> R,
             (forall t0 t1 v, term (t0, t1, c * v) = c * term (t0, t1, v)) ->
             Rsum (map term (scale_segments c segs))
             = c * Rsum (map term segs)).
  { intros term Hterm. unfold scale_segments.
    induction segs as [| [[t0 t1] v] rest IH]; simpl.
    - rewrite Rsum_nil. ring.
    - rewrite !Rsum_cons, Hterm, IH. ring. }
  exists (a0_closed T segs),
    (map (a_closed T segs) (Py.range 1 (N + 1))),
    (map (b_closed T segs) (Py.range 1 (N + 1))).
  rewrite !compute_a0_closed, !compute_an_bn_closed by exact HT.
  do 2 (split; [reflexivity |]). split.
  - f_equal. unfold a0_closed. rewrite Hscale; [ring |].
    intros t0 t1 v. simpl. ring.
  - rewrite !map_map. f_equal. f_equal; apply map_ext; intros n.
    + unfold a_closed. rewrite Hscale; [ring |].
      intros t0 t1 v. simpl. unfold Rdiv. ring.
    + unfold b_closed. rewrite Hscale; [ring |].
      intros t0 t1 v. simpl. unfold Rdiv. ring.
Qed.

Lemma coefficients_scale_witness :
  exists a0 a_list b_list,
    compute_a0 T SEGMENTS = Ok a0
    /\ compute_an_bn T SEGMENTS 3 = Ok (a_list, b_list)
    /\ compute_a0 T (scale_segments (-2) SEGMENTS) = Ok (-2 * a0)
    /\ compute_an_bn T (scale_segments (-2) SEGMENTS) 3
       = Ok (map (Rmult (-2)) a_list, map (Rmult (-2)) b_list).
Proof.
  apply (coefficients_scale T (-2) SEGMENTS 3). unfold T. lra.
Defined.

(** ** The size of the coefficients *)

Lemma sin_difference_bound (x y : R) : Rabs (sin x - sin y) <= 2.
Proof.
  pose proof (SIN_bound x). pose proof (SIN_bound y).
  apply Rabs_le. lra.
Qed.

Lemma cos_difference_bound (x y : R) : Rabs (cos x - cos y) <= 2.
Proof.
  pose proof (COS_bound x). pose proof (COS_bound y).
  apply Rabs_le. lra.
Qed.

Lemma scaled_difference_bound (v d w : R) :
  0 < w -> Rabs d <= 2 -> Rabs (v * d / w) <= 2 * Rabs v / w.
Proof.
  intros Hw Hd. unfold Rdiv.
  rewrite !Rabs_mult, Rabs_inv, (Rabs_pos_eq w) by lra.
  apply Rmult_le_compat_r.
  - left. apply Rinv_0_lt_compat. exact Hw.
  - pose proof (Rabs_pos v). nra.
Qed.

Lemma term_sum_bound (term : segment -> R) (w : R) (segs : list segment) :
  (forall t0 t1 v, Rabs (term (t0, t1, v)) <= 2 * Rabs v / w) ->
  Rabs (Rsum (map term segs)) <= 2 * total_magnitude segs / w.
Proof.
  intros Hterm. unfold total_magnitude.
  induction segs as [| [[t0 t1] v] rest IH]; simpl.
  - rewrite !Rsum_nil, Rabs_R0. unfold Rdiv. lra.
  - rewrite !Rsum_cons.
    eapply Rle_trans; [apply Rabs_triang |].
    specialize (Hterm t0 t1 v). unfold Rdiv in *. lra.
Qed.

Lemma frequency_scale (T : R) (n : Z) (M : R) :
  0 < T -> (1 <= n)%Z ->
  0 < omega T n
  /\ 2 / T * (2 * M / omega T n) = 2 * M / (PI * IZR n).
Proof.
  intros HT Hn.
  pose proof PI_RGT_0 as HP.
  assert (Hz : 0 < IZR n) by (apply IZR_lt; lia).
  split.
  - unfold omega. apply Rdiv_lt_0_compat; [| exact HT].
    apply Rmult_lt_0_compat; [lra | exact Hz].
  - unfold omega. field. repeat split; lra.
Qed.

Lemma closed_forms_bound (T : R) (segs : list segment) (n : Z) :
  0 < T -> (1 <= n)%Z ->
  Rabs (a_closed T segs n) <= 2 * total_magnitude segs / (PI * IZR n)
  /\ Rabs (b_closed T segs n) <= 2 * total_magnitude segs / (PI * IZR n).
Proof.
  intros HT Hn.
  destruct (frequency_scale T n (total_magnitude segs) HT Hn) as [Hw <-].
  assert (H2T : 0 < 2 / T) by (apply Rdiv_lt_0_compat; lra).
  unfold a_closed, b_closed.
  rewrite !Rabs_mult, (Rabs_pos_eq (2 / T)) by lra.
  split; apply Rmult_le_compat_l; try lra; apply term_sum_bound.
  - intros t0 t1 v. simpl.
    apply scaled_difference_bound; [exact Hw | apply sin_difference_bound].
  - intros t0 t1 v. simpl.
    replace (- v * (cos (omega T n * t1) - cos (omega T n * t0)) / omega T n)
      with (- (v * (cos (omega T n * t1) - cos (omega T n * t0)) / omega T n))
      by (unfold Rdiv; ring).
    rewrite Rabs_Ropp.
    apply scaled_difference_bound; [exact Hw | apply cos_difference_bound].
Qed.

Lemma coefficient_at (f : Z -> R) (N n : Z) :
  (1 <= n <= N)%Z -> nth (Z.to_nat (n - 1)) (map f (Py.range 1 (N + 1))) 0 = f n.
Proof.
  intros Hn.
  assert (Hi : (Z.to_nat (n - 1) < Z.to_nat (N + 1 - 1))%nat) by lia.
  rewrite nth_indep with (d' := f 0%Z)
    by (now rewrite length_map, range_length).
  rewrite map_nth, range_nth by exact Hi. f_equal. lia.
Qed.

(** X6. In exact real arithmetic the harmonics decay at least like [1/n]:
    for a period [T > 0], the coefficients of harmonic [n] returned by
    [compute_an_bn] are bounded in absolute value by
    [2 * (|v_1| + ... + |v_k|) / (pi * n)], whatever the bounds of the
    segments. *)
Theorem harmonics_decay (T : R) (segs : list segment) (N : Z) :
  0 < T ->
  exists a_list b_list,
    compute_an_bn T segs N = Ok (a_list, b_list)
    /\ forall n, (1 <= n <= N)%Z ->
         Rabs (nth (Z.to_nat (n - 1)) a_list 0)
         <= 2 * total_magnitude segs / (PI * IZR n)
         /\ Rabs (nth (Z.to_nat (n - 1)) b_list 0)
            <= 2 * total_magnitude segs / (PI * IZR n).
Proof.
  intros HT. do 2 eexists. split.
  - apply compute_an_bn_closed. lra.
  - intros n Hn. rewrite !coefficient_at by exact Hn.
    apply closed_forms_bound; [exact HT | lia].
Qed.

Lemma harmonics_decay_witness :
  exists a_list b_list,
    compute_an_bn T SEGMENTS 8 = Ok (a_list, b_list)
    /\ forall n, (1 <= n <= 8)%Z ->
         Rabs (nth (Z.to_nat (n - 1)) a_list 0)
         <= 2 * total_magnitude SEGMENTS / (PI * IZR n)
         /\ Rabs (nth (Z.to_nat (n - 1)) b_list 0)
            <= 2 * total_magnitude SEGMENTS / (PI * IZR n).
Proof.
  apply (harmonics_decay T SEGMENTS 8). unfold T. lra.
Defined.

(** ** More on the evaluation of the series *)

Lemma partial_sum_sum (T a0 t' : R) (terms : list (Z * (R * R))) :
  partial_sum T a0 t' terms = a0 / 2 + Rsum (map (harmonic_term T t') terms).
Proof.
  unfold partial_sum. generalize (a0 / 2).
  induction terms as [| [n [a_n b_n]] rest IH]; intros s; simpl.
  - rewrite Rsum_nil. ring.
  - rewrite IH, Rsum_cons. simpl. ring.
Qed.

Lemma reconstruct_sum (T t a0 : R) (a_list b_list : list R) :
  T <> 0 ->
  reconstruct T t a0 a_list b_list
  = Ok (a0 / 2
        + Rsum (map (harmonic_term T (reduced_time T t))
                  (Py.enumerate (Py.zip a_list b_list) 1))).
Proof.
  intros HT. rewrite reconstruct_closed by exact HT.
  now rewrite partial_sum_sum.
Qed.

Lemma enumerate_app {A : Type} (xs ys : list A) (start : Z) :
  Py.enumerate (xs ++ ys) start
  = Py.enumerate xs start
    ++ Py.enumerate ys (start + Z.of_nat (List.length xs)).
Proof.
  revert start. induction xs as [| x rest IH]; intros start; simpl.
  - now rewrite Z.add_0_r.
  - rewrite IH. do 3 f_equal. lia.
Qed.

Lemma zip_app {A B : Type} (xs xs' : list A) (ys ys' : list B) :
  List.length xs = List.length ys ->
  Py.zip (xs ++ xs') (ys ++ ys') = Py.zip xs ys ++ Py.zip xs' ys'.
Proof.
  unfold Py.zip. revert ys.
  induction xs as [| x rest IH]; intros [| y ys]; simpl; intros H;
    try discriminate.
  - reflexivity.
  - now rewrite IH by lia.
Qed.




Lemma harmonic_term_bound (T t' : R) (n : Z) (a_n b_n : R) :
  Rabs (harmonic_term T t' (n, (a_n, b_n))) <= Rabs a_n + Rabs b_n.
Proof.
  simpl. eapply Rle_trans; [apply Rabs_triang |].
  rewrite !Rabs_mult.
  pose proof (COS_bound (omega T n * t')) as Hc.
  pose proof (SIN_bound (omega T n * t')) as Hs.
  assert (Rabs (cos (omega T n * t')) <= 1) by (apply Rabs_le; lra).
  assert (Rabs (sin (omega T n * t')) <= 1) by (apply Rabs_le; lra).
  pose proof (Rabs_pos a_n). pose proof (Rabs_pos b_n). nra.
Qed.

Lemma series_bound (T t' : R) (pairs : list (R * R)) (start : Z) :
  Rabs (Rsum (map (harmonic_term T t') (Py.enumerate pairs start)))
  <= Rsum (map (fun '(a_n, b_n) => Rabs a_n + Rabs b_n) pairs).
Proof.
  revert start. induction pairs as [| [a_n b_n] rest IH]; intros start.
  - simpl. rewrite Rsum_nil, Rabs_R0. lra.
  - cbn [Py.enumerate map]. rewrite !Rsum_cons.
    eapply Rle_trans; [apply Rabs_triang |].
    pose proof (harmonic_term_bound T t' start a_n b_n).
    specialize (IH (start + 1)%Z). lra.
Qed.

(** X9. In exact real arithmetic the value of the series is bounded
    independently of the time: for a non-zero period,
    [|reconstruct| <= |a0| / 2 + sum (|a_n| + |b_n|)] over the coefficient
    pairs used. *)
Theorem reconstruct_bounded (T t a0 : R) (a_list b_list : list R) :
  T <> 0 ->
  exists v,
    reconstruct T t a0 a_list b_list = Ok v
    /\ Rabs v <= Rabs a0 / 2 + coefficient_magnitude a_list b_list.
Proof.
  intros HT. eexists. split.
  - apply reconstruct_sum. exact HT.
  - eapply Rle_trans; [apply Rabs_triang |].
    apply Rplus_le_compat.
    + unfold Rdiv. rewrite Rabs_mult, (Rabs_pos_eq (/ 2)) by lra. lra.
    + apply series_bound.
Qed.

Lemma reconstruct_bounded_witness :
  exists v,
    reconstruct T (-7.5) (4 / 3) [1; -2] [3; 4] = Ok v
    /\ Rabs v <= Rabs (4 / 3) / 2 + coefficient_magnitude [1; -2] [3; 4].
Proof.
  apply (reconstruct_bounded T (-7.5) (4 / 3) [1; -2] [3; 4]).
  unfold T. lra.
Defined.

Lemma reduced_time_multiple (T : R) (k : Z) :
  T <> 0 -> reduced_time T (IZR k * T) = 0.
Proof.
  intros HT. unfold reduced_time.
  replace (IZR k * T / T) with (IZR k) by (field; exact HT).
  rewrite ZfloorZ. ring.
Qed.

Lemma series_at_origin (T : R) (pairs : list (R * R)) (start : Z) :
  Rsum (map (harmonic_term T 0) (Py.enumerate pairs start))
  = Rsum (map fst pairs).
Proof.
  revert start. induction pairs as [| [a_n b_n] rest IH]; intros start.
  - reflexivity.
  - cbn [Py.enumerate map]. rewrite !Rsum_cons, IH. simpl.
    rewrite Rmult_0_r, cos_0, sin_0. ring.
Qed.



(** ** The order of the checks in [piecewise_integral] *)



(** X12. In exact real arithmetic, for each of the three kinds, the
    integral over [[t0, t1]] is the sum of the integrals over [[t0, m]] and
    [[m, t1]], for any [m], and exchanging the bounds changes its sign. *)
Theorem piecewise_integral_additive (T value t0 m t1 : R) (kind : string)
  (n : Z) :
  T <> 0 -> n <> 0%Z ->
  kind = "const"%string \/ kind = "cos"%string \/ kind = "sin"%string ->
  exists left right,
    piecewise_integral T value t0 m (kind, Some n) = Ok left
    /\ piecewise_integral T value m t1 (kind, Some n) = Ok right
    /\ piecewise_integral T value t0 t1 (kind, Some n) = Ok (left + right)
    /\ piecewise_integral T value m t0 (kind, Some n) = Ok (- left).
Proof.
  intros HT Hn [-> | [-> | ->]]; do 2 eexists.
  - rewrite !piecewise_integral_const.
    repeat split; try reflexivity; f_equal; simpl; ring.
  - rewrite !piecewise_integral_cos by assumption.
    repeat split; try reflexivity; f_equal; simpl; unfold Rdiv; ring.
  - rewrite !piecewise_integral_sin by assumption.
    repeat split; try reflexivity; f_equal; simpl; unfold Rdiv; ring.
Qed.

Lemma piecewise_integral_additive_witness :
  exists left right,
    piecewise_integral T 3 0 4 ("cos"%string, Some 2%Z) = Ok left
    /\ piecewise_integral T 3 4 10 ("cos"%string, Some 2%Z) = Ok right
    /\ piecewise_integral T 3 0 10 ("cos"%string, Some 2%Z)
       = Ok (left + right)
    /\ piecewise_integral T 3 4 0 ("cos"%string, Some 2%Z) = Ok (- left).
Proof.
  apply (piecewise_integral_additive T 3 0 4 10 "cos"%string 2%Z).
  - unfold T. lra.
  - discriminate.
  - right. left. reflexivity.
Defined.

(** * The sample table of [main] *)

(** ** Printing loops *)

Lemma print_each_all {A B : Type} (line : A -> outcome B) (f : A -> B)
  (items : list A) :
  (forall x, In x items -> line x = Returns (f x)) ->
  print_each line items = (map f items, None).
Proof.
  induction items as [| x rest IH]; intros H; simpl.
  - reflexivity.
  - rewrite H by (left; reflexivity).
    rewrite IH; [reflexivity |].
    intros y Hy. apply H. right. exact Hy.
Qed.

Lemma print_each_first_raises {A B : Type} (line : A -> outcome B)
  (x : A) (rest : list A) (e : exception) :
  line x = Raises e -> print_each line (x :: rest) = ([], Some e).
Proof. intros H. simpl. now rewrite H. Qed.

(** ** The lookup of the original value *)

Lemma find_segment_some (segs : list segment) (t v : R) :
  find_segment segs t = Some v ->
  exists t0 t1, In (t0, t1, v) segs /\ t0 <= t < t1.
Proof.
  induction segs as [| [[t0 t1] u] rest IH]; simpl; [discriminate |].
  destruct (Rle_dec t0 t) as [H0 | H0];
    [destruct (Rlt_dec t t1) as [H1 | H1] |].
  - intros [= ->]. exists t0, t1. split; [left; reflexivity | lra].
  - intros H. destruct (IH H) as (s0 & s1 & Hin & Hs).
    exists s0, s1. split; [right; exact Hin | exact Hs].
  - intros H. destruct (IH H) as (s0 & s1 & Hin & Hs).
    exists s0, s1. split; [right; exact Hin | exact Hs].
Qed.

Lemma find_segment_none (segs : list segment) (t : R) :
  find_segment segs t = None <->
  forall t0 t1 v, In (t0, t1, v) segs -> ~ (t0 <= t < t1).
Proof.
  induction segs as [| [[t0 t1] u] rest IH]; simpl.
  - split; [intros _ s0 s1 v [] | reflexivity].
  - destruct (Rle_dec t0 t) as [H0 | H0];
      [destruct (Rlt_dec t t1) as [H1 | H1] |].
    + split; [discriminate |].
      intros H. exfalso. apply (H t0 t1 u); [left; reflexivity | lra].
    + rewrite IH. split.
      * intros H s0 s1 v [[= <- <- <-] | Hin]; [lra | exact (H s0 s1 v Hin)].
      * intros H s0 s1 v Hin. apply (H s0 s1 v). right. exact Hin.
    + rewrite IH. split.
      * intros H s0 s1 v [[= <- <- <-] | Hin]; [lra | exact (H s0 s1 v Hin)].
      * intros H s0 s1 v Hin. apply (H s0 s1 v). right. exact Hin.
Qed.

Lemma contiguous_le (a b : R) (segs : list segment) :
  contiguous a b segs -> a <= b.
Proof. induction 1; lra. Qed.

Lemma contiguous_bounds (a b : R) (segs : list segment) (t0 t1 v : R) :
  contiguous a b segs -> In (t0, t1, v) segs -> a <= t0 /\ t0 < t1 /\ t1 <= b.
Proof.
  induction 1 as [a | a m b u rest Ham Hrest IH]; simpl; [intros [] |].
  pose proof (contiguous_le _ _ _ Hrest).
  intros [[= <- <- <-] | Hin].
  - lra.
  - specialize (IH Hin). lra.
Qed.

Lemma contiguous_cover (a b : R) (segs : list segment) (t : R) :
  contiguous a b segs -> a <= t < b ->
  exists t0 t1 v, In (t0, t1, v) segs /\ t0 <= t < t1.
Proof.
  induction 1 as [a | a m b u rest Ham Hrest IH]; intros Ht; [lra |].
  destruct (Rlt_dec t m) as [Hm | Hm].
  - exists a, m, u. split; [left; reflexivity | lra].
  - destruct IH as (t0 & t1 & v & Hin & Hc); [lra |].
    exists t0, t1, v. split; [right; exact Hin | exact Hc].
Qed.

Lemma contiguous_unique (a b : R) (segs : list segment) (t : R)
  (s0 s1 u t0 t1 v : R) :
  contiguous a b segs ->
  In (s0, s1, u) segs -> s0 <= t < s1 ->
  In (t0, t1, v) segs -> t0 <= t < t1 ->
  (s0, s1, u) = (t0, t1, v).
Proof.
  induction 1 as [a | a m b w rest Ham Hrest IH]; simpl; [intros [] |].
  intros [[= <- <- <-] | Hs] Hst [[= <- <- <-] | Ht] Htt.
  - reflexivity.
  - pose proof (contiguous_bounds _ _ _ _ _ _ Hrest Ht). lra.
  - pose proof (contiguous_bounds _ _ _ _ _ _ Hrest Hs). lra.
  - now apply IH.
Qed.

Lemma find_segment_outside (a b : R) (segs : list segment) (t : R) :
  tiles a b segs -> ~ (a <= t < b) -> find_segment segs t = None.
Proof.
  intros (sorted & HP & HC) Ht.
  apply find_segment_none. intros t0 t1 v Hin Hc.
  apply (Permutation_in _ HP) in Hin.
  pose proof (contiguous_bounds _ _ _ _ _ _ HC Hin). lra.
Qed.

(** X13. When the segments tile [[a, b)], in any listing order, the lookup
    of [main] finds for every [t] in [[a, b)] the value of the one segment
    that contains [t], and finds nothing for a [t] outside, the end [b]
    included. *)
Theorem find_segment_on_tiling (a b : R) (segs : list segment) (t : R) :
  tiles a b segs ->
  (a <= t < b ->
   exists t0 t1 v,
     In (t0, t1, v) segs /\ t0 <= t < t1
     /\ find_segment segs t = Some v
     /\ forall s0 s1 u, In (s0, s1, u) segs -> s0 <= t < s1 -> u = v)
  /\ (~ (a <= t < b) -> find_segment segs t = None).
Proof.
  intros Htiles. pose proof Htiles as (sorted & HP & HC). split.
  - intros Ht.
    destruct (contiguous_cover _ _ _ t HC Ht) as (t0 & t1 & v & Hin & Hc).
    assert (Huniq : forall s0 s1 u,
               In (s0, s1, u) segs -> s0 <= t < s1 -> u = v).
    { intros s0 s1 u Hs Hst.
      apply (Permutation_in _ HP) in Hs.
      now injection (contiguous_unique _ _ _ t _ _ _ _ _ _ HC Hs Hst Hin Hc). }
    exists t0, t1, v.
    split; [apply (Permutation_in _ (Permutation_sym HP)); exact Hin |].
    split; [exact Hc |]. split; [| exact Huniq].
    destruct (find_segment segs t) as [u |] eqn:Hfind.
    + destruct (find_segment_some _ _ _ Hfind) as (s0 & s1 & Hs & Hst).
      f_equal. now apply (Huniq s0 s1).
    + exfalso. rewrite find_segment_none in Hfind.
      apply (Hfind t0 t1 v); [| exact Hc].
      apply (Permutation_in _ (Permutation_sym HP)). exact Hin.
  - now apply find_segment_outside.
Qed.

Lemma tiles_SEGMENTS : tiles 0 T SEGMENTS.
Proof.
  exists SEGMENTS. split; [apply Permutation_refl |].
  unfold SEGMENTS, T.
  repeat (apply contiguous_cons; [lra |]). apply contiguous_nil.
Qed.

Lemma find_segment_on_tiling_witness :
  (exists t0 t1 v,
      In (t0, t1, v) SEGMENTS /\ t0 <= 35 < t1
      /\ find_segment SEGMENTS 35 = Some v
      /\ forall s0 s1 u, In (s0, s1, u) SEGMENTS -> s0 <= 35 < s1 -> u = v)
  /\ find_segment SEGMENTS T = None.
Proof.
  split.
  - apply (proj1 (find_segment_on_tiling 0 T SEGMENTS 35 tiles_SEGMENTS)).
    unfold T. lra.
  - apply (proj2 (find_segment_on_tiling 0 T SEGMENTS T tiles_SEGMENTS)).
    unfold T. lra.
Defined.

(** ** The table *)

Lemma range_map_nth {B : Type} (f : Z -> B) (start stop : Z) (i : nat)
  (d : B) :
  (i < Z.to_nat (stop - start))%nat ->
  nth i (map f (Py.range start stop)) d = f (start + Z.of_nat i)%Z.
Proof.
  intros Hi.
  rewrite nth_indep with (d' := f 0%Z)
    by (now rewrite length_map, range_length).
  now rewrite map_nth, range_nth.
Qed.

Lemma sample_line_returns (T : R) (SEGMENTS : list segment) (samples : Z)
  (a0 : R) (a_list b_list : list R) (i : Z) :
  T <> 0 -> SEGMENTS <> [] -> samples <> 1%Z ->
  exists orig val,
    sample_line T SEGMENTS samples a0 a_list b_list i
    = Returns (IZR i * T / IZR (samples - 1), orig, val)
    /\ original_value SEGMENTS (IZR i * T / IZR (samples - 1)) = Returns orig
    /\ reconstruct T (IZR i * T / IZR (samples - 1)) a0 a_list b_list = Ok val.
Proof.
  intros HT Hsegs Hsamples.
  assert (Hden : IZR (samples - 1) <> 0) by (apply not_0_IZR; lia).
  unfold sample_line. rewrite truediv_ok by exact Hden. cbn [call and_then].
  set (t := IZR i * T / IZR (samples - 1)).
  rewrite (reconstruct_closed T t) by exact HT. cbn [call and_then].
  assert (Horig : exists orig, original_value SEGMENTS t = Returns orig).
  { unfold original_value. destruct (find_segment SEGMENTS t) as [v |].
    - now exists v.
    - destruct SEGMENTS as [| [[t0 t1] v] rest]; [contradiction | now exists v]. }
  destruct Horig as [orig Horig]. rewrite Horig. cbn [and_then].
  exists orig. eexists. repeat split.
Qed.



(** X15. The table fails before its first line or not at all.  With one
    sample the time of that sample divides by zero; without segments, and
    with a period that is not zero, the first lookup raises [IndexError];
    with no sample or a negative number of them the table is empty and
    nothing is raised.  A period of zero does not reach the table: the
    call of [compute_a0] that [main] begins with has raised
    [ZeroDivisionError]. *)
Theorem sample_table_failures (T : R) (SEGMENTS : list segment) (samples : Z)
  (a0 : R) (a_list b_list : list R) :
  ((samples <= 0)%Z ->
   sample_table T SEGMENTS samples a0 a_list b_list = ([], None))
  /\ (samples = 1%Z ->
      sample_table T SEGMENTS samples a0 a_list b_list
      = ([], Some (Builtin ZeroDivisionError)))
  /\ ((2 <= samples)%Z -> T <> 0 -> SEGMENTS = [] ->
      sample_table T SEGMENTS samples a0 a_list b_list
      = ([], Some IndexError))
  /\ (T = 0 ->
      call (compute_a0 T SEGMENTS) = Raises (Builtin ZeroDivisionError)).
Proof.
  unfold sample_table. repeat split.
  - intros H. rewrite range_nil by lia. reflexivity.
  - intros ->. rewrite range_cons by lia. apply print_each_first_raises.
    unfold sample_line. simpl (IZR (1 - 1)). rewrite truediv_zero.
    reflexivity.
  - intros H HT ->. rewrite range_cons by lia. apply print_each_first_raises.
    assert (Hden : IZR (samples - 1) <> 0) by (apply not_0_IZR; lia).
    unfold sample_line. rewrite truediv_ok by exact Hden.
    cbn [call and_then]. rewrite reconstruct_closed by exact HT.
    reflexivity.
  - intros ->. now rewrite compute_a0_period_0.
Qed.

Lemma sample_table_failures_witness :
  sample_table T SEGMENTS (-3) (4 / 3) [1] [2] = ([], None)
  /\ sample_table T SEGMENTS 1 (4 / 3) [1] [2]
     = ([], Some (Builtin ZeroDivisionError))
  /\ sample_table T [] 13 (4 / 3) [1] [2] = ([], Some IndexError)
  /\ call (compute_a0 0 SEGMENTS) = Raises (Builtin ZeroDivisionError).
Proof.
  split; [| split; [| split]].
  - apply (proj1 (sample_table_failures T SEGMENTS (-3) (4 / 3) [1] [2])).
    lia.
  - apply (proj1 (proj2 (sample_table_failures T SEGMENTS 1 (4 / 3) [1] [2]))).
    reflexivity.
  - apply (proj1 (proj2 (proj2
             (sample_table_failures T [] 13 (4 / 3) [1] [2])))).
    + lia.
    + unfold T. lra.
    + reflexivity.
  - apply (proj2 (proj2 (proj2
             (sample_table_failures 0 SEGMENTS 13 (4 / 3) [1] [2])))).
    reflexivity.
Defined.

(** X16. The last line of the table is at [t = T], where no segment of a
    tiling of [[0, T)] contains [t]: the original value shown is the value of
    the segment listed first, and the series has the value it has at
    [t = 0].  When the segment listed first starts at 0 the original value
    is also the one shown at [t = 0]. *)
Theorem last_sample_wraps (T t0 t1 v : R) (rest : list segment) (a0 : R)
  (a_list b_list : list R) :
  0 < T ->
  tiles 0 T ((t0, t1, v) :: rest) ->
  original_value ((t0, t1, v) :: rest) T = Returns v
  /\ reconstruct T T a0 a_list b_list = reconstruct T 0 a0 a_list b_list
  /\ (t0 = 0 -> original_value ((t0, t1, v) :: rest) 0 = Returns v).
Proof.
  intros HT Htiles. split; [| split].
  - unfold original_value.
    rewrite (find_segment_outside 0 T _ T Htiles) by lra.
    reflexivity.
  - assert (HT0 : T <> 0) by lra.
    pose proof (reduced_time_multiple T 1 HT0) as H1.
    pose proof (reduced_time_multiple T 0 HT0) as H0.
    rewrite Rmult_1_l in H1. rewrite Rmult_0_l in H0.
    rewrite !reconstruct_sum by exact HT0. now rewrite H1, H0.
  - intros ->. unfold original_value. simpl.
    destruct Htiles as (sorted & HP & HC).
    assert (Hin : In (0, t1, v) sorted)
      by (apply (Permutation_in _ HP); left; reflexivity).
    pose proof (contiguous_bounds _ _ _ _ _ _ HC Hin) as Hb.
    destruct (Rle_dec 0 0) as [_ | H0]; [| lra].
    destruct (Rlt_dec 0 t1) as [_ | H1]; [reflexivity | lra].
Qed.

Lemma last_sample_wraps_witness :
  original_value SEGMENTS T = Returns 3
  /\ reconstruct T T (4 / 3) [1; 2] [3; 4]
     = reconstruct T 0 (4 / 3) [1; 2] [3; 4]
  /\ original_value SEGMENTS 0 = Returns 3.
Proof.
  destruct (last_sample_wraps T 0 10 3
              [(10, 30, 0); (30, 40, 1); (40, 60, 0)] (4 / 3) [1; 2] [3; 4])
    as (Hlast & Hseries & Hfirst).
  - unfold T. lra.
  - exact tiles_SEGMENTS.
  - split; [exact Hlast | split; [exact Hseries | now apply Hfirst]].
Defined.

(** ** From the coefficients to the series *)

Lemma enumerate_zip_range (f g : Z -> R) (count : nat) (start : Z) :
  Py.enumerate
    (Py.zip (map f (Py.range start (start + Z.of_nat count)))
            (map g (Py.range start (start + Z.of_nat count)))) start
  = map (fun n => (n, (f n, g n))) (Py.range start (start + Z.of_nat count)).
Proof.
  revert start. induction count as [| count IH]; intros start.
  - rewrite range_nil by lia. reflexivity.
  - rewrite range_cons by lia. cbn [map Py.zip combine Py.enumerate].
    f_equal. specialize (IH (start + 1)%Z).
    replace (start + 1 + Z.of_nat count)%Z with (start + Z.of_nat (S count))%Z
      in IH by lia.
    exact IH.
Qed.

Lemma coefficient_lines_closed (T : R) (segs : list segment) (N : Z) :
  coefficient_lines (map (a_closed T segs) (Py.range 1 (N + 1)))
                    (map (b_closed T segs) (Py.range 1 (N + 1)))
  = map (fun n => (n, (a_closed T segs n, b_closed T segs n)))
      (Py.range 1 (N + 1)).
Proof.
  unfold coefficient_lines.
  destruct (Z_lt_le_dec N 0) as [HN | HN].
  - rewrite range_nil by lia. reflexivity.
  - replace (N + 1)%Z with (1 + Z.of_nat (Z.to_nat N))%Z by lia.
    apply enumerate_zip_range.
Qed.





(** * The plotting scripts *)

(** ** Indexing with an order, and sorting *)

Lemma and_then_returns {A B : Type} (m : outcome A) (k : A -> outcome B)
  (b : B) :
  and_then m k = Returns b -> exists a, m = Returns a /\ k a = Returns b.
Proof.
  destruct m as [a | e]; simpl; [| discriminate].
  intros H. now exists a.
Qed.

Lemma take_in_range {A : Type} (arr : list A) (order : list nat) (d : A) :
  Forall (fun i => (i < List.length arr)%nat) order ->
  take arr order = Returns (map (fun i => nth i arr d) order).
Proof.
  induction 1 as [| i rest Hi _ IH]; simpl.
  - reflexivity.
  - destruct (nth_error arr i) as [x |] eqn:Hx.
    + rewrite IH. simpl. do 2 f_equal.
      symmetry. now apply nth_error_nth.
    + apply nth_error_None in Hx. lia.
Qed.

Lemma map_nth_seq {A : Type} (arr : list A) (d : A) :
  map (fun i => nth i arr d) (seq 0 (List.length arr)) = arr.
Proof.
  induction arr as [| x rest IH]; simpl.
  - reflexivity.
  - f_equal. rewrite <- seq_shift, map_map. exact IH.
Qed.

Lemma order_in_range (order : list nat) (n : nat) :
  Permutation order (seq 0 n) -> Forall (fun i => (i < n)%nat) order.
Proof.
  intros HP. apply Forall_forall. intros i Hi.
  apply (Permutation_in _ HP), in_seq in Hi. lia.
Qed.

(** Taking the elements in an order that lists every position once only
    rearranges them. *)
Lemma take_permutation {A : Type} (arr : list A) (order : list nat) :
  Permutation order (seq 0 (List.length arr)) ->
  exists arr',
    take arr order = Returns arr'
    /\ Permutation arr' arr
    /\ List.length arr' = List.length arr.
Proof.
  intros HP.
  destruct arr as [| d rest] eqn:Harr.
  - apply Permutation_sym, Permutation_nil in HP. subst order.
    exists []. repeat split. apply perm_nil.
  - rewrite <- Harr in *. clear Harr rest.
    exists (map (fun i => nth i arr d) order).
    split; [apply take_in_range, order_in_range, HP |].
    split.
    + eapply perm_trans; [apply Permutation_map, HP |].
      rewrite map_nth_seq. apply Permutation_refl.
    + rewrite length_map, (Permutation_length HP). apply length_seq.
Qed.

(** Taking from a mapped array is mapping what is taken: the columns of a
    table stay aligned when its rows are taken in some order. *)
Lemma take_map {A B : Type} (f : A -> B) (arr : list A) (order : list nat)
  (arr' : list A) :
  take arr order = Returns arr' ->
  take (map f arr) order = Returns (map f arr').
Proof.
  revert arr'. induction order as [| i rest IH]; intros arr'; simpl.
  - now intros [= <-].
  - rewrite nth_error_map.
    destruct (nth_error arr i) as [x |]; simpl; [| discriminate].
    destruct (take arr rest) as [xs |]; simpl; [| discriminate].
    intros [= <-]. now rewrite (IH xs eq_refl).
Qed.

Lemma insert_by_key_permutation {A : Type} (key : A -> R) (x : A)
  (sorted : list A) :
  Permutation (insert_by_key key x sorted) (x :: sorted).
Proof.
  induction sorted as [| y rest IH]; simpl.
  - apply Permutation_refl.
  - destruct (Rlt_dec (key y) (key x)).
    + eapply perm_trans; [apply perm_skip, IH | apply perm_swap].
    + apply Permutation_refl.
Qed.

Lemma sort_by_key_permutation {A : Type} (key : A -> R) (items : list A) :
  Permutation (sort_by_key key items) items.
Proof.
  induction items as [| x rest IH]; simpl.
  - apply perm_nil.
  - eapply perm_trans; [apply insert_by_key_permutation |].
    apply perm_skip, IH.
Qed.

Lemma insert_by_key_sorted {A : Type} (key : A -> R) (x : A)
  (sorted : list A) :
  Sorted (fun a b => key a <= key b) sorted ->
  Sorted (fun a b => key a <= key b) (insert_by_key key x sorted).
Proof.
  induction 1 as [| y rest Hrest IH Hhd]; simpl.
  - repeat constructor.
  - destruct (Rlt_dec (key y) (key x)) as [Hlt | Hge].
    + constructor; [exact IH |].
      destruct rest as [| z rest']; simpl.
      * constructor. lra.
      * destruct (Rlt_dec (key z) (key x)).
        -- constructor. now inversion Hhd.
        -- constructor. lra.
    + constructor; [now constructor |]. constructor. lra.
Qed.

Lemma sort_by_key_sorted {A : Type} (key : A -> R) (items : list A) :
  Sorted (fun a b => key a <= key b) (sort_by_key key items).
Proof.
  induction items as [| x rest IH]; simpl.
  - constructor.
  - now apply insert_by_key_sorted.
Qed.

Lemma Sorted_map {A B : Type} (f : A -> B) (le : B -> B -> Prop)
  (items : list A) :
  Sorted (fun a b => le (f a) (f b)) items -> Sorted le (map f items).
Proof.
  induction 1 as [| x rest _ IH Hhd]; simpl; constructor.
  - exact IH.
  - destruct Hhd; simpl; constructor. assumption.
Qed.

Lemma map_fst_combine {A B : Type} (xs : list A) (ys : list B) :
  List.length xs = List.length ys -> map fst (combine xs ys) = xs.
Proof.
  revert ys. induction xs as [| x rest IH]; intros [| y ys]; simpl;
    intros H; try discriminate; [reflexivity |].
  f_equal. apply IH. lia.
Qed.

Lemma map_snd_combine {A B : Type} (xs : list A) (ys : list B) :
  List.length xs = List.length ys -> map snd (combine xs ys) = ys.
Proof.
  revert ys. induction xs as [| x rest IH]; intros [| y ys]; simpl;
    intros H; try discriminate; [reflexivity |].
  f_equal. apply IH. lia.
Qed.

Lemma combine_seq_nth_error {K : Type} (keys : list K) (start : nat) :
  Forall (fun p => nth_error keys (snd p - start) = Some (fst p)
                   /\ (start <= snd p)%nat)
    (combine keys (seq start (List.length keys))).
Proof.
  revert start. induction keys as [| k rest IH]; intros start; simpl.
  - constructor.
  - constructor.
    + simpl. rewrite Nat.sub_diag. split; [reflexivity | lia].
    + specialize (IH (S start)).
      eapply Forall_impl; [| exact IH].
      intros [key i] [Hk Hi]. simpl in *.
      replace (i - start)%nat with (S (i - S start)) by lia.
      split; [exact Hk | lia].
Qed.

Lemma take_pairs {K : Type} (keys : list K) (pairs : list (K * nat)) :
  Forall (fun p => nth_error keys (snd p) = Some (fst p)) pairs ->
  take keys (map snd pairs) = Returns (map fst pairs).
Proof.
  induction 1 as [| [k i] rest Hp _ IH]; simpl in *.
  - reflexivity.
  - now rewrite Hp, IH.
Qed.

(** The stable argsort keeps the promise of [np.argsort]. *)
Lemma stable_argsort_is_argsort {K : Type} (to_R : K -> R) (keys : list K) :
  is_argsort (fun a b => to_R a <= to_R b) keys (stable_argsort to_R keys).
Proof.
  unfold is_argsort, stable_argsort.
  set (pairs := combine keys (seq 0 (List.length keys))).
  set (sorted := sort_by_key (fun p => to_R (fst p)) pairs).
  assert (HP : Permutation sorted pairs) by apply sort_by_key_permutation.
  assert (Hsnd : map snd pairs = seq 0 (List.length keys)).
  { unfold pairs. rewrite map_snd_combine; [reflexivity |].
    now rewrite length_seq. }
  split.
  - rewrite <- Hsnd. now apply Permutation_map.
  - exists (map fst sorted). split.
    + apply take_pairs.
      apply (Permutation_Forall (Permutation_sym HP)).
      eapply Forall_impl; [| apply (combine_seq_nth_error keys 0)].
      intros [k i] [Hk _]. simpl in *. now rewrite Nat.sub_0_r in Hk.
    + apply Sorted_map. apply sort_by_key_sorted.
Qed.

(** ** [plot_pres0.py] *)

Section Plot_pres0_facts.

Variable int : option string -> result Z.
Variable float : option string -> result R.
Variable repr : option (list string) -> string.
Variable disk : string -> option csv_file.
Variable list_snapshot_files : string -> list string.
Variable argsort : list R -> list nat.

Local Abbreviation read_pres0_from_csv := (Plot_pres0.read_pres0_from_csv int float repr disk).
Local Abbreviation first_idx0 := (Plot_pres0.first_idx0 int float).
Local Abbreviation passed_over := (Plot_pres0.passed_over int).
Local Abbreviation found_points := (Plot_pres0.found_points int float repr disk).
Local Abbreviation collect_series :=
  (Plot_pres0.collect_series int float repr disk list_snapshot_files argsort).

Lemma first_idx0_passes (before rest : list csv_row) :
  Forall passed_over before ->
  first_idx0 (before ++ rest) = first_idx0 rest.
Proof.
  induction 1 as [| row before Hrow _ IH]; simpl; [reflexivity |].
  unfold Plot_pres0.passed_over in Hrow.
  destruct (int (row "idx"%string)) as [idx | e]; [| exact IH].
  apply Z.eqb_neq in Hrow. now rewrite Hrow.
Qed.

Lemma first_idx0_none (rows : list csv_row) :
  first_idx0 rows = Returns None <-> Forall passed_over rows.
Proof.
  induction rows as [| row rest IH]; simpl.
  - split; [constructor | reflexivity].
  - unfold Plot_pres0.passed_over at 1.
    destruct (int (row "idx"%string)) as [idx | e] eqn:Hidx.
    + destruct (Z.eqb_spec idx 0) as [-> | Hne].
      * split.
        -- destruct (float (row "time"%string)); simpl; [| discriminate].
           destruct (float (row "pres"%string)); simpl; discriminate.
        -- intros H. inversion H as [| ? ? Hrow _]; subst.
           unfold Plot_pres0.passed_over in Hrow. rewrite Hidx in Hrow.
           contradiction.
      * rewrite IH. split.
        -- intros H. constructor; [| exact H].
           unfold Plot_pres0.passed_over. now rewrite Hidx.
        -- intros H. now inversion H.
    + rewrite IH. split.
      * intros H. constructor; [| exact H].
        unfold Plot_pres0.passed_over. now rewrite Hidx.
      * intros H. now inversion H.
Qed.

Lemma header_accepted (path : string) (f : csv_file) (names : list string) :
  disk path = Some f -> fieldnames f = Some names ->
  issubset snapshot_columns names = true ->
  read_pres0_from_csv path = first_idx0 (data_rows f).
Proof.
  intros Hdisk Hnames Hsub. unfold Plot_pres0.read_pres0_from_csv.
  rewrite Hdisk, Hnames, Hsub.
  destruct names as [| c rest]; [discriminate | reflexivity].
Qed.

(** X19. [read_pres0_from_csv] is decided by the first row whose index
    parses to 0, the rows before it being passed over whether their index
    is another number or does not parse at all.  It returns the time and
    the pressure of that row if both parse; if one of them does not, the
    exception of [float] is raised - the row is not skipped, and later rows
    of index 0 are not looked at. *)
Theorem read_pres0_first_match (path : string) (f : csv_file)
  (names : list string) (before after : list csv_row) (row : csv_row) :
  disk path = Some f -> fieldnames f = Some names ->
  issubset snapshot_columns names = true ->
  data_rows f = before ++ row :: after ->
  Forall passed_over before ->
  int (row "idx"%string) = Ok 0%Z ->
  (forall t p0,
      float (row "time"%string) = Ok t -> float (row "pres"%string) = Ok p0 ->
      read_pres0_from_csv path = Returns (Some (t, p0)))
  /\ (forall e,
        float (row "time"%string) = Raise e ->
        read_pres0_from_csv path = Raises (Builtin e))
  /\ (forall t e,
        float (row "time"%string) = Ok t ->
        float (row "pres"%string) = Raise e ->
        read_pres0_from_csv path = Raises (Builtin e)).
Proof.
  intros Hdisk Hnames Hsub Hrows Hbefore Hidx.
  rewrite (header_accepted path f names Hdisk Hnames Hsub), Hrows.
  rewrite first_idx0_passes by exact Hbefore.
  simpl. rewrite Hidx. simpl.
  split; [| split].
  - intros t p0 -> ->. reflexivity.
  - intros e ->. reflexivity.
  - intros t e -> ->. reflexivity.
Qed.

(** X20. With an accepted header, [read_pres0_from_csv] returns [None]
    exactly when no row has an index that parses to 0; a file without rows
    is such a file. *)
Theorem read_pres0_none (path : string) (f : csv_file) (names : list string) :
  disk path = Some f -> fieldnames f = Some names ->
  issubset snapshot_columns names = true ->
  (read_pres0_from_csv path = Returns None
   <-> Forall passed_over (data_rows f)).
Proof.
  intros Hdisk Hnames Hsub.
  rewrite (header_accepted path f names Hdisk Hnames Hsub).
  apply first_idx0_none.
Qed.

Lemma issubset_false (required names : list string) (c : string) :
  In c required -> ~ In c names -> issubset required names = false.
Proof.
  intros Hin Hnot. unfold issubset.
  destruct (forallb _ required) eqn:Hall; [| reflexivity].
  rewrite forallb_forall in Hall. specialize (Hall c Hin).
  apply existsb_exists in Hall as (c' & Hc' & Heq).
  apply String.eqb_eq in Heq. subst c'. contradiction.
Qed.

(** X21. Before any row is read, [read_pres0_from_csv] raises
    [FileNotFoundError] when there is no file and [ValueError] when the
    header is missing or lacks one of the five columns [time], [idx],
    [rho], [vel], [pres] - also when the column lacking is [rho] or [vel],
    which the function never reads. *)
Theorem read_pres0_header_required (path : string) :
  (disk path = None ->
   read_pres0_from_csv path = Raises (no_such_file path))
  /\ (forall f c,
        disk path = Some f ->
        In c snapshot_columns ->
        (forall names, fieldnames f = Some names -> ~ In c names) ->
        read_pres0_from_csv path
        = Raises (Builtin (ValueError
                    ("CSV " ++ path ++ " missing required columns: "
                     ++ repr (fieldnames f))))).
Proof.
  unfold Plot_pres0.read_pres0_from_csv. split.
  - intros ->. reflexivity.
  - intros f c -> Hc Hmissing.
    destruct (fieldnames f) as [names |]; [| reflexivity].
    rewrite (issubset_false snapshot_columns names c Hc (Hmissing names eq_refl)).
    now rewrite orb_true_r.
Qed.

Hypothesis argsort_promise : forall keys, is_argsort Rle keys (argsort keys).

Local Abbreviation collect_step :=
  (fun '(ts, ps) fp =>
     res <-- read_pres0_from_csv fp ;;
     match res with
     | None => Returns (ts, ps)
     | Some (t, p0) => Returns (ts ++ [t], ps ++ [p0])
     end).

Lemma collect_loop (files : list string) :
  (forall fp, In fp files -> exists res, read_pres0_from_csv fp = Returns res) ->
  forall ts ps,
    for_in collect_step files (ts, ps)
    = Returns (ts ++ map fst (found_points files),
               ps ++ map snd (found_points files)).
Proof.
  induction files as [| fp rest IH]; intros Hread ts ps.
  - simpl. now rewrite !app_nil_r.
  - destruct (Hread fp (or_introl eq_refl)) as [res Hres].
    cbn [for_in Plot_pres0.found_points flat_map]. rewrite Hres.
    cbn [and_then].
    assert (Hrest : forall fp', In fp' rest ->
                      exists res', read_pres0_from_csv fp' = Returns res')
      by (intros fp' Hin; apply Hread; right; exact Hin).
    fold (Plot_pres0.found_points int float repr disk rest).
    destruct res as [[t p0] |]; cbn [and_then]; rewrite (IH Hrest).
    + simpl. now rewrite <- !app_assoc.
    + reflexivity.
Qed.

Lemma collect_loop_raises (good rest : list string) (bad : string)
  (e : exception) :
  (forall fp, In fp good -> exists res, read_pres0_from_csv fp = Returns res) ->
  read_pres0_from_csv bad = Raises e ->
  forall ts ps,
    for_in collect_step (good ++ bad :: rest) (ts, ps) = Raises e.
Proof.
  induction good as [| fp good IH]; intros Hgood Hbad ts ps.
  - simpl. now rewrite Hbad.
  - destruct (Hgood fp (or_introl eq_refl)) as [res Hres].
    cbn [app for_in]. rewrite Hres. cbn [and_then].
    assert (Hrest : forall fp', In fp' good ->
                      exists res', read_pres0_from_csv fp' = Returns res')
      by (intros fp' Hin; apply Hgood; right; exact Hin).
    destruct res as [[t p0] |]; cbn [and_then]; now apply IH.
Qed.

Lemma combine_fst_snd {A B : Type} (pairs : list (A * B)) :
  combine (map fst pairs) (map snd pairs) = pairs.
Proof.
  induction pairs as [| [a b] rest IH]; simpl; [reflexivity | now rewrite IH].
Qed.

(** X22. When every snapshot file can be read and at least one has a row of
    index 0, [collect_series] returns two arrays of equal length, the times
    in ascending order, and the pairs (time, pressure) are exactly the
    points the files contribute, each once: the pressures follow their
    times through the sort.  This holds for every [argsort] that keeps the
    promise of [np.argsort]. *)
Theorem collect_series_sorted (build_dir : string) :
  (forall fp, In fp (list_snapshot_files build_dir) ->
              exists res, read_pres0_from_csv fp = Returns res) ->
  found_points (list_snapshot_files build_dir) <> [] ->
  exists ts ps,
    collect_series build_dir = Returns (ts, ps)
    /\ Sorted Rle ts
    /\ List.length ts = List.length ps
    /\ Permutation (combine ts ps)
         (found_points (list_snapshot_files build_dir)).
Proof.
  intros Hread Hfound. unfold Plot_pres0.collect_series.
  rewrite (collect_loop _ Hread). cbn [and_then app].
  set (points := found_points (list_snapshot_files build_dir)) in *.
  destruct points as [| point rest] eqn:Hpoints; [contradiction |].
  rewrite <- Hpoints. cbn [map].
  replace (map fst points) with (fst point :: map fst rest)
    by (now rewrite Hpoints).
  unfold Py.zip.
  replace (fst point :: map fst rest) with (map fst points)
    by (now rewrite Hpoints).
  rewrite combine_fst_snd.
  destruct (argsort_promise (map fst points))
    as (Hperm & sorted & Htake & Hsorted).
  rewrite length_map in Hperm.
  destruct (take_permutation points _ Hperm) as (arr' & Harr & HP & Hlen).
  rewrite Harr. cbn [and_then].
  exists (map fst arr'), (map snd arr').
  split; [reflexivity |].
  split.
  - rewrite (take_map fst _ _ _ Harr) in Htake.
    injection Htake as <-. exact Hsorted.
  - split; [now rewrite !length_map |].
    rewrite combine_fst_snd. exact HP.
Qed.

(** X23. [collect_series] returns nothing partial.  When every file can be
    read but none has a row of index 0 - an empty directory included - it
    raises [SystemExit]; and when a file cannot be read, the exception of
    the first such file is raised, whatever the other files hold. *)
Theorem collect_series_failures (build_dir : string) :
  ((forall fp, In fp (list_snapshot_files build_dir) ->
               exists res, read_pres0_from_csv fp = Returns res) ->
   found_points (list_snapshot_files build_dir) = [] ->
   collect_series build_dir
   = Raises (SystemExit
               ("No pres[0] data found in " ++ build_dir
                ++ ". Ensure snapshots exist and include idx==0.")))
  /\ (forall good bad rest e,
        list_snapshot_files build_dir = good ++ bad :: rest ->
        (forall fp, In fp good ->
                    exists res, read_pres0_from_csv fp = Returns res) ->
        read_pres0_from_csv bad = Raises e ->
        collect_series build_dir = Raises e).
Proof.
  unfold Plot_pres0.collect_series. split.
  - intros Hread Hfound.
    rewrite (collect_loop _ Hread), Hfound. reflexivity.
  - intros good bad rest e -> Hgood Hbad.
    now rewrite (collect_loop_raises good rest bad e Hgood Hbad).
Qed.

End Plot_pres0_facts.

(** ** [plot_pres0.py] on the example directory *)

Lemma read_pres0_first_match_witness :
  Plot_pres0.read_pres0_from_csv example_int example_float example_repr
    example_disk "build/snapshot_1.csv"
  = Returns (Some (1.5, 3))
  /\ Plot_pres0.read_pres0_from_csv example_int example_float example_repr
       example_disk "build/snapshot_5.csv"
     = Raises (Builtin (ValueError
                 "could not convert string to float: 'soon'")).
Proof.
  split.
  - refine (proj1 (read_pres0_first_match example_int example_float
                     example_repr example_disk "build/snapshot_1.csv"
                     _ snapshot_columns
                     [example_row "1.5" "x" "2.0" "0.5" "7.0";
                      example_row "1.5" "1" "2.0" "0.5" "7.0"]
                     [] (example_row "1.5" "0" "1.5" "0.5" "3.0")
                     eq_refl eq_refl eq_refl eq_refl _ eq_refl)
                  1.5 3 eq_refl eq_refl).
    repeat constructor; unfold Plot_pres0.passed_over; simpl; discriminate.
  - refine (proj1 (proj2
              (read_pres0_first_match example_int example_float
                 example_repr example_disk "build/snapshot_5.csv"
                 _ snapshot_columns []
                 [example_row "0.5" "0" "1.5" "0.5" "2.0"]
                 (example_row "soon" "0" "1.5" "0.5" "2.0")
                 eq_refl eq_refl eq_refl eq_refl _ eq_refl)) _ eq_refl).
    constructor.
Defined.

Lemma read_pres0_none_witness :
  Plot_pres0.read_pres0_from_csv example_int example_float example_repr
    example_disk "build/snapshot_3.csv"
  = Returns None.
Proof.
  apply (proj2 (read_pres0_none example_int example_float example_repr
                  example_disk "build/snapshot_3.csv" _ snapshot_columns
                  eq_refl eq_refl eq_refl)).
  repeat constructor; unfold Plot_pres0.passed_over; simpl; discriminate.
Defined.

Lemma read_pres0_header_required_witness :
  Plot_pres0.read_pres0_from_csv example_int example_float example_repr
    example_disk "build/snapshot_9.csv"
  = Raises (no_such_file "build/snapshot_9.csv")
  /\ Plot_pres0.read_pres0_from_csv example_int example_float example_repr
       example_disk "build/snapshot_4.csv"
     = Raises (Builtin (ValueError
                 ("CSV build/snapshot_4.csv missing required columns: "
                  ++ example_repr (Some ["time"; "idx"; "vel"; "pres"]%string)))).
Proof.
  split.
  - apply (proj1 (read_pres0_header_required example_int example_float
                    example_repr example_disk "build/snapshot_9.csv")).
    reflexivity.
  - apply (proj2 (read_pres0_header_required example_int example_float
                    example_repr example_disk "build/snapshot_4.csv")
             _ "rho"%string eq_refl).
    + simpl. tauto.
    + intros names [= <-]. simpl.
      intros [H | [H | [H | [H | []]]]]; discriminate.
Defined.

Lemma example_files_read (build_dir : string) :
  build_dir = "build"%string \/ build_dir = "late"%string
  \/ build_dir = ""%string ->
  forall fp, In fp (example_listing build_dir) ->
    exists res,
      Plot_pres0.read_pres0_from_csv example_int example_float example_repr
        example_disk fp = Returns res.
Proof.
  intros [-> | [-> | ->]] fp; simpl.
  - intros [<- | [<- | [<- | []]]]; eexists; reflexivity.
  - intros [<- | []]; eexists; reflexivity.
  - intros [].
Qed.

Lemma collect_series_sorted_witness :
  exists ts ps,
    Plot_pres0.collect_series example_int example_float example_repr
      example_disk example_listing (stable_argsort (fun t => t)) "build"
    = Returns (ts, ps)
    /\ Sorted Rle ts
    /\ List.length ts = List.length ps
    /\ Permutation (combine ts ps)
         (Plot_pres0.found_points example_int example_float example_repr
            example_disk (example_listing "build")).
Proof.
  apply (collect_series_sorted example_int example_float example_repr
           example_disk example_listing (stable_argsort (fun t => t))).
  - intros keys. apply (stable_argsort_is_argsort (fun t => t)).
  - apply example_files_read. left. reflexivity.
  - discriminate.
Defined.

Lemma collect_series_failures_witness :
  Plot_pres0.collect_series example_int example_float example_repr
    example_disk example_listing (stable_argsort (fun t => t)) "late"
  = Raises (SystemExit
              "No pres[0] data found in late. Ensure snapshots exist and include idx==0.")
  /\ Plot_pres0.collect_series example_int example_float example_repr
       example_disk example_listing (stable_argsort (fun t => t)) "broken"
     = Raises (Builtin (ValueError
                 ("CSV build/snapshot_4.csv missing required columns: "
                  ++ example_repr (Some ["time"; "idx"; "vel"; "pres"]%string)))).
Proof.
  split.
  - apply (proj1 (collect_series_failures example_int example_float
                    example_repr example_disk example_listing
                    (stable_argsort (fun t => t)) "late")).
    + apply example_files_read. right. left. reflexivity.
    + reflexivity.
  - apply (proj2 (collect_series_failures example_int example_float
                    example_repr example_disk example_listing
                    (stable_argsort (fun t => t)) "broken")
             ["build/snapshot_1.csv"%string] "build/snapshot_4.csv"%string
             ["build/snapshot_2.csv"%string]).
    + reflexivity.
    + intros fp [<- | []]. eexists. reflexivity.
    + reflexivity.
Defined.

(** ** The row loop *)

Lemma read_columns_loop (int : option string -> result Z)
  (float : option string -> result R) (rows : list csv_row)
  (done : list record) :
  for_in
    (fun '(times, idxs, rhos, vels, press) row =>
       t <-- call (float (row "time"%string)) ;;
       i <-- call (int (row "idx"%string)) ;;
       r <-- call (float (row "rho"%string)) ;;
       v <-- call (float (row "vel"%string)) ;;
       p <-- call (float (row "pres"%string)) ;;
       Returns (times ++ [t], idxs ++ [i], rhos ++ [r], vels ++ [v],
                press ++ [p]))
    rows (columns_of done)
  = (records <-- parse_rows int float rows ;;
     Returns (columns_of (done ++ records))).
Proof.
  revert done. induction rows as [| row rest IH]; intros done.
  - simpl. now rewrite app_nil_r.
  - cbn [for_in parse_rows]. unfold parse_row, columns_of at 1.
    destruct (float (row "time"%string)) as [t |]; [| reflexivity].
    destruct (int (row "idx"%string)) as [i |]; [| reflexivity].
    destruct (float (row "rho"%string)) as [r |]; [| reflexivity].
    destruct (float (row "vel"%string)) as [v |]; [| reflexivity].
    destruct (float (row "pres"%string)) as [p |]; [| reflexivity].
    cbn [call and_then].
    specialize (IH (done ++ [(t, i, r, v, p)])).
    unfold columns_of at 1 in IH. rewrite !map_app in IH. simpl in IH.
    rewrite IH.
    destruct (parse_rows int float rest) as [records |]; [| reflexivity].
    cbn [and_then]. now rewrite <- app_assoc.
Qed.

(** The loop returns the parsed rows column by column. *)
Lemma read_columns_parse_rows (int : option string -> result Z)
  (float : option string -> result R) (rows : list csv_row) :
  read_columns int float rows
  = (records <-- parse_rows int float rows ;; Returns (columns_of records)).
Proof. apply (read_columns_loop int float rows []). Qed.

Lemma parse_rows_length (int : option string -> result Z)
  (float : option string -> result R) (rows : list csv_row)
  (records : list record) :
  parse_rows int float rows = Returns records ->
  List.length records = List.length rows.
Proof.
  revert records. induction rows as [| row rest IH]; intros records; simpl.
  - now intros [= <-].
  - destruct (parse_row int float row) as [x |]; [| discriminate].
    destruct (parse_rows int float rest) as [xs |]; [| discriminate].
    simpl. intros [= <-]. simpl. now rewrite (IH xs eq_refl).
Qed.

Lemma parse_rows_raises (int : option string -> result Z)
  (float : option string -> result R) (good rest : list csv_row)
  (bad : csv_row) (records : list record) (e : exception) :
  parse_rows int float good = Returns records ->
  parse_row int float bad = Raises e ->
  parse_rows int float (good ++ bad :: rest) = Raises e.
Proof.
  revert records. induction good as [| row good IH]; intros records; simpl.
  - intros _ ->. reflexivity.
  - destruct (parse_row int float row) as [x |]; [| discriminate].
    destruct (parse_rows int float good) as [xs |] eqn:Hgood; [| discriminate].
    simpl. intros _ Hbad. now rewrite (IH xs eq_refl Hbad).
Qed.

(** ** [vispy/visualizations.py] *)

Lemma array_min_spec (x : R) (rest : list R) :
  In (array_min x rest) (x :: rest)
  /\ Forall (fun y => array_min x rest <= y) (x :: rest).
Proof.
  unfold array_min. revert x.
  induction rest as [| y rest IH]; intros x; simpl.
  - split; [left; reflexivity | repeat constructor; lra].
  - destruct (IH (Rmin x y)) as [Hin Hall].
    inversion Hall as [| ? ? Hhd Htl]; subst.
    split.
    + destruct Hin as [Hin | Hin]; [| right; right; exact Hin].
      rewrite <- Hin. unfold Rmin. destruct (Rle_dec x y); auto.
    + pose proof (Rmin_l x y). pose proof (Rmin_r x y).
      constructor; [lra |]. constructor; [lra | exact Htl].
Qed.

Lemma array_max_spec (x : R) (rest : list R) :
  In (array_max x rest) (x :: rest)
  /\ Forall (fun y => y <= array_max x rest) (x :: rest).
Proof.
  unfold array_max. revert x.
  induction rest as [| y rest IH]; intros x; simpl.
  - split; [left; reflexivity | repeat constructor; lra].
  - destruct (IH (Rmax x y)) as [Hin Hall].
    inversion Hall as [| ? ? Hhd Htl]; subst.
    split.
    + destruct Hin as [Hin | Hin]; [| right; right; exact Hin].
      rewrite <- Hin. unfold Rmax. destruct (Rle_dec x y); auto.
    + pose proof (Rmax_l x y). pose proof (Rmax_r x y).
      constructor; [lra |]. constructor; [lra | exact Htl].
Qed.

(** One more array, not empty, widens the bounds to enclose it. *)
Lemma bounds_of_step (values : list R) (vmin vmax : option R) (x : R)
  (rest : list R) :
  bounds_of values (vmin, vmax) ->
  bounds_of (values ++ x :: rest)
    (Some (match vmin with
           | None => array_min x rest
           | Some m => Rmin m (array_min x rest)
           end),
     Some (match vmax with
           | None => array_max x rest
           | Some m => Rmax m (array_max x rest)
           end)).
Proof.
  destruct (array_min_spec x rest) as [Hmin_in Hmin].
  destruct (array_max_spec x rest) as [Hmax_in Hmax].
  rewrite Forall_forall in Hmin, Hmax.
  intros Hb. destruct values as [| v values]; simpl in Hb.
  - injection Hb as -> ->. simpl.
    exists (array_min x rest), (array_max x rest).
    repeat split; try assumption.
    apply Forall_forall. intros y Hy. split; [now apply Hmin | now apply Hmax].
  - destruct Hb as (lo & hi & [= -> ->] & Hlo & Hhi & Hall).
    rewrite Forall_forall in Hall.
    cbn [app bounds_of].
    exists (Rmin lo (array_min x rest)), (Rmax hi (array_max x rest)).
    split; [reflexivity |].
    change (v :: values ++ x :: rest) with ((v :: values) ++ x :: rest).
    split; [| split].
    + apply in_or_app. unfold Rmin.
      destruct (Rle_dec lo (array_min x rest)); [left | right]; assumption.
    + apply in_or_app. unfold Rmax.
      destruct (Rle_dec hi (array_max x rest)); [right | left]; assumption.
    + apply Forall_forall. intros y Hy.
      pose proof (Rmin_l lo (array_min x rest)).
      pose proof (Rmin_r lo (array_min x rest)).
      pose proof (Rmax_l hi (array_max x rest)).
      pose proof (Rmax_r hi (array_max x rest)).
      apply in_app_or in Hy as [Hy | Hy].
      * specialize (Hall y Hy). lra.
      * specialize (Hmin y Hy). specialize (Hmax y Hy). lra.
Qed.

Section Visualizations_facts.

Variable int : option string -> result Z.
Variable float : option string -> result R.
Variable repr : option (list string) -> string.
Variable repr_expected : string.
Variable disk : string -> option csv_file.

Local Abbreviation load_snapshot :=
  (Visualizations.load_snapshot int float repr repr_expected disk).
Local Abbreviation compute_minmax_over_files :=
  (Visualizations.compute_minmax_over_files int float repr repr_expected disk).
Local Abbreviation field_values :=
  (Visualizations.field_values int float repr repr_expected disk).

(** X24. [load_snapshot] accepts a header that has the five columns, in any
    order and among others.  When every index fits a 64-bit integer it
    returns the rows as they stand in the file, column by column and
    unsorted, and the time of the snapshot is the time of the last row;
    when one index does not fit, [np.asarray] raises [OverflowError] once
    all the rows are parsed.  A file without rows gives the time 0.0 and
    empty arrays - an empty file is not an error. *)
Theorem load_snapshot_keeps_rows (csv_path : string) (f : csv_file)
  (names : list string) (records : list record) :
  disk csv_path = Some f -> fieldnames f = Some names ->
  issubset snapshot_columns names = true ->
  parse_rows int float (data_rows f) = Returns records ->
  (forallb fits_int64 (map record_idx records) = true ->
   load_snapshot csv_path
   = Returns {| Visualizations.time := last (map record_time records) 0;
                Visualizations.idx := map record_idx records;
                Visualizations.rho := map record_rho records;
                Visualizations.vel := map record_vel records;
                Visualizations.pres := map record_pres records |})
  /\ (forallb fits_int64 (map record_idx records) = false ->
      load_snapshot csv_path = Raises OverflowError)
  /\ (data_rows f = [] ->
      load_snapshot csv_path
      = Returns {| Visualizations.time := 0;
                   Visualizations.idx := [];
                   Visualizations.rho := [];
                   Visualizations.vel := [];
                   Visualizations.pres := [] |}).
Proof.
  intros Hdisk Hnames Hsub Hrows.
  assert (Hload :
            load_snapshot csv_path
            = (idx_arr <-- asarray_int (map record_idx records) ;;
               Returns {| Visualizations.time
                            := last (map record_time records) 0;
                          Visualizations.idx := idx_arr;
                          Visualizations.rho := map record_rho records;
                          Visualizations.vel := map record_vel records;
                          Visualizations.pres := map record_pres records |})).
  { unfold Visualizations.load_snapshot.
    rewrite Hdisk, Hnames, Hsub, andb_true_r. simpl negb.
    rewrite andb_false_r, read_columns_parse_rows, Hrows. reflexivity. }
  rewrite Hload. unfold asarray_int. split; [| split].
  - intros Hfit. now rewrite Hfit.
  - intros Hfit. now rewrite Hfit.
  - intros Hempty. rewrite Hempty in Hrows. injection Hrows as <-.
    reflexivity.
Qed.

(** X25. [load_snapshot] returns no partial snapshot: it raises
    [FileNotFoundError] when there is no file, [ValueError] when the header
    is missing or lacks one of the five columns, and the exception of
    [float] or [int] for the first row with a cell that does not parse, the
    rows after it not being looked at. *)
Theorem load_snapshot_failures (csv_path : string) :
  (disk csv_path = None ->
   load_snapshot csv_path
   = Raises (FileNotFoundError ("Snapshot CSV not found: " ++ csv_path)))
  /\ (forall f c,
        disk csv_path = Some f ->
        In c snapshot_columns ->
        (forall names, fieldnames f = Some names -> ~ In c names) ->
        load_snapshot csv_path
        = Raises (Builtin (ValueError
                    ("CSV header must include " ++ repr_expected ++ ", got "
                     ++ repr (fieldnames f)))))
  /\ (forall f names good bad rest records e,
        disk csv_path = Some f -> fieldnames f = Some names ->
        issubset snapshot_columns names = true ->
        data_rows f = good ++ bad :: rest ->
        parse_rows int float good = Returns records ->
        parse_row int float bad = Raises e ->
        load_snapshot csv_path = Raises e).
Proof.
  unfold Visualizations.load_snapshot. split; [| split].
  - intros ->. reflexivity.
  - intros f c -> Hc Hmissing.
    assert (Hsub : issubset snapshot_columns
                     match fieldnames f with Some l => l | None => [] end
                   = false).
    { destruct (fieldnames f) as [names |].
      - apply (issubset_false _ _ c Hc). now apply Hmissing.
      - reflexivity. }
    rewrite Hsub, andb_false_r. reflexivity.
  - intros f names good bad rest records e -> -> Hsub -> Hgood Hbad.
    rewrite Hsub, andb_true_r. simpl negb.
    rewrite andb_false_r, read_columns_parse_rows.
    now rewrite (parse_rows_raises int float good rest bad records e).
Qed.

Local Abbreviation minmax_step field :=
  (fun '(vmin, vmax) '(path, _) =>
     snap <-- load_snapshot path ;;
     data <-- Visualizations.getattr_array snap field ;;
     match data with
     | [] => Returns (vmin, vmax)
     | x :: rest =>
         let dmin := array_min x rest in
         let dmax := array_max x rest in
         Returns
           (Some (match vmin with None => dmin | Some m => Rmin m dmin end),
            Some (match vmax with None => dmax | Some m => Rmax m dmax end))
     end).

Lemma minmax_loop (field : string) (files : list (string * R)) :
  (forall path t, In (path, t) files ->
     exists data,
       (snap <-- load_snapshot path ;;
        Visualizations.getattr_array snap field) = Returns data) ->
  forall values vmin vmax,
    bounds_of values (vmin, vmax) ->
    exists bounds,
      for_in (minmax_step field) files (vmin, vmax) = Returns bounds
      /\ bounds_of (values ++ field_values files field) bounds.
Proof.
  induction files as [| [path t] rest IH]; intros Hread values vmin vmax Hb.
  - exists (vmin, vmax). simpl. rewrite app_nil_r. now split.
  - destruct (Hread path t (or_introl eq_refl)) as [data Hdata].
    assert (Hrest : forall path' t', In (path', t') rest ->
              exists data',
                (snap <-- load_snapshot path' ;;
                 Visualizations.getattr_array snap field) = Returns data')
      by (intros path' t' Hin; apply (Hread path' t'); right; exact Hin).
    cbn [for_in Visualizations.field_values flat_map].
    fold (field_values rest field). rewrite Hdata.
    destruct (load_snapshot path) as [snap |]; [| discriminate].
    cbn [and_then] in Hdata |- *. rewrite Hdata. cbn [and_then].
    destruct data as [| x xs].
    + cbn [and_then app]. now apply IH.
    + cbn [and_then]. rewrite app_assoc.
      apply IH; [exact Hrest |]. now apply bounds_of_step.
Qed.


End Visualizations_facts.

(** ** [plot_field_xt.py] *)

Lemma take_length {A : Type} (arr : list A) (order : list nat)
  (arr' : list A) :
  take arr order = Returns arr' -> List.length arr' = List.length order.
Proof.
  revert arr'. induction order as [| i rest IH]; intros arr'; simpl.
  - now intros [= <-].
  - destruct (nth_error arr i); [| discriminate].
    destruct (take arr rest) as [xs |]; simpl; [| discriminate].
    intros [= <-]. simpl. now rewrite (IH xs eq_refl).
Qed.

Lemma for_in_app {A S : Type} (body : S -> A -> outcome S)
  (items more : list A) (s s' : S) :
  for_in body items s = Returns s' ->
  for_in body (items ++ more) s = for_in body more s'.
Proof.
  revert s. induction items as [| x items IH]; intros s; cbn [for_in app].
  - now intros [= ->].
  - destruct (body s x) as [s1 |]; cbn [and_then]; [apply IH | discriminate].
Qed.

Lemma array_equal_refl (xs : list Z) : array_equal xs xs = true.
Proof.
  induction xs as [| x rest IH]; simpl; [reflexivity |].
  now rewrite Z.eqb_refl, IH.
Qed.

Lemma array_equal_eq (xs ys : list Z) : array_equal xs ys = true -> xs = ys.
Proof.
  revert ys. induction xs as [| x rest IH]; intros [| y ys]; simpl;
    try discriminate; [reflexivity |].
  intros H. apply andb_prop in H as [Hx Hrest].
  apply Z.eqb_eq in Hx. subst y. f_equal. now apply IH.
Qed.

Lemma issubset_columns_nonempty (names : list string) :
  issubset snapshot_columns names = true -> names <> [].
Proof. intros H ->. discriminate. Qed.

Lemma Sorted_fst_map {B : Type} (rows : list (R * B)) :
  Sorted (fun a b => fst a <= fst b) rows -> Sorted Rle (map fst rows).
Proof. apply (Sorted_map fst Rle). Qed.

Section Plot_field_xt_facts.

Variable int : option string -> result Z.
Variable float : option string -> result R.
Variable repr : option (list string) -> string.
Variable disk : string -> option csv_file.
Variable list_snapshot_files : string -> list string.
Variable argsort : list Z -> list nat.
Variable vstack_message : list (list R) -> string.

Local Abbreviation read_snapshot :=
  (Plot_field_xt.read_snapshot int float repr disk argsort).
Local Abbreviation vstack := (Plot_field_xt.vstack vstack_message).
Local Abbreviation field_rows :=
  (Plot_field_xt.field_rows int float repr disk argsort).
Local Abbreviation build_xt_field :=
  (Plot_field_xt.build_xt_field int float repr disk list_snapshot_files
     argsort vstack_message).

(** The four arrays of a snapshot have one length, whatever [argsort]
    returns: an order that does not fit raises [IndexError] instead. *)
Lemma read_snapshot_lengths (path : string) (t : R) (idx_arr : list Z)
  (rho_arr vel_arr pres_arr : list R) :
  read_snapshot path = Returns (t, idx_arr, rho_arr, vel_arr, pres_arr) ->
  List.length rho_arr = List.length idx_arr
  /\ List.length vel_arr = List.length idx_arr
  /\ List.length pres_arr = List.length idx_arr.
Proof.
  unfold Plot_field_xt.read_snapshot.
  destruct (disk path) as [f |]; [| discriminate].
  destruct (_ || _); [discriminate |].
  destruct (read_columns int float (data_rows f))
    as [[[[[times idxs] rhos] vels] press] |]; [| discriminate].
  cbn [and_then]. destruct times as [| t0 times]; [discriminate |].
  intros H.
  apply and_then_returns in H as (arr & _ & H).
  apply and_then_returns in H as (i' & Hi & H).
  apply and_then_returns in H as (r' & Hr & H).
  apply and_then_returns in H as (v' & Hv & H).
  apply and_then_returns in H as (p' & Hp & H).
  injection H as _ <- <- <- <-.
  rewrite (take_length _ _ _ Hi), (take_length _ _ _ Hr),
    (take_length _ _ _ Hv), (take_length _ _ _ Hp).
  repeat split.
Qed.

Hypothesis argsort_promise : forall keys, is_argsort Z.le keys (argsort keys).

(** X27. When every index of a file fits a 64-bit integer, [read_snapshot]
    sorts the rows of the file by index and keeps every row whole: the four
    arrays it returns are the columns of one and the same rearrangement of
    the rows, ascending in the index, and the time is the time of the row
    that stands last in the file.  This holds for every [argsort] that
    keeps the promise of [np.argsort].  When one index does not fit,
    [np.asarray] raises [OverflowError] before anything is sorted. *)
Theorem read_snapshot_sorted (path : string) (f : csv_file)
  (names : list string) (records : list record) :
  disk path = Some f -> fieldnames f = Some names ->
  issubset snapshot_columns names = true ->
  parse_rows int float (data_rows f) = Returns records ->
  records <> [] ->
  (forallb fits_int64 (map record_idx records) = true ->
   exists sorted,
     read_snapshot path
     = Returns (last (map record_time records) 0,
                map record_idx sorted, map record_rho sorted,
                map record_vel sorted, map record_pres sorted)
     /\ Permutation sorted records
     /\ Sorted Z.le (map record_idx sorted))
  /\ (forallb fits_int64 (map record_idx records) = false ->
      read_snapshot path = Raises OverflowError).
Proof.
  intros Hdisk Hnames Hsub Hrows Hne.
  pose proof (issubset_columns_nonempty names Hsub) as Hnames_ne.
  unfold Plot_field_xt.read_snapshot.
  rewrite Hdisk, Hnames, Hsub.
  destruct names as [| c names']; [contradiction |].
  cbn [orb negb]. rewrite read_columns_parse_rows, Hrows.
  cbn [and_then]. unfold columns_of.
  destruct records as [| x records'] eqn:Hrecords; [contradiction |].
  rewrite <- Hrecords. cbn [map].
  replace (map record_time records)
    with (record_time x :: map record_time records') by (now rewrite Hrecords).
  replace (record_time x :: map record_time records')
    with (map record_time records) by (now rewrite Hrecords).
  unfold asarray_int. split; intros Hfit; rewrite Hfit; [| reflexivity].
  cbn [and_then].
  destruct (argsort_promise (map record_idx records))
    as (Hperm & keys & Htake & Hsorted).
  rewrite length_map in Hperm.
  destruct (take_permutation records _ Hperm) as (sorted & Hs & HP & _).
  exists sorted.
  rewrite (take_map record_idx _ _ _ Hs), (take_map record_rho _ _ _ Hs),
    (take_map record_vel _ _ _ Hs), (take_map record_pres _ _ _ Hs).
  cbn [and_then].
  split; [reflexivity | split; [exact HP |]].
  rewrite (take_map record_idx _ _ _ Hs) in Htake.
  injection Htake as <-. exact Hsorted.
Qed.

Variable repr_expected : string.

(** X28. The two readers disagree on a file that has the header and no row:
    [read_snapshot] raises [ValueError], [load_snapshot] of
    [visualizations.py] returns a snapshot at time 0.0 with empty arrays. *)
Theorem snapshot_without_rows (path : string) (f : csv_file)
  (names : list string) :
  disk path = Some f -> fieldnames f = Some names ->
  issubset snapshot_columns names = true ->
  data_rows f = [] ->
  read_snapshot path
  = Raises (Builtin (ValueError ("CSV " ++ path ++ " has no data rows")))
  /\ Visualizations.load_snapshot int float repr repr_expected disk path
     = Returns {| Visualizations.time := 0;
                  Visualizations.idx := [];
                  Visualizations.rho := [];
                  Visualizations.vel := [];
                  Visualizations.pres := [] |}.
Proof.
  intros Hdisk Hnames Hsub Hrows.
  pose proof (issubset_columns_nonempty names Hsub) as Hnames_ne.
  split.
  - unfold Plot_field_xt.read_snapshot.
    rewrite Hdisk, Hnames, Hsub, Hrows.
    destruct names as [| c names']; [contradiction | reflexivity].
  - unfold Visualizations.load_snapshot.
    rewrite Hdisk, Hnames, Hsub, Hrows. simpl.
    rewrite andb_false_r. reflexivity.
Qed.

Local Abbreviation build_step field :=
  (fun '(snapshots, x_idx_ref) path =>
     '(t, idx_arr, rho_arr, vel_arr, pres_arr) <-- read_snapshot path ;;
     x_idx_ref' <--
       match x_idx_ref with
       | None => Returns (Some idx_arr)
       | Some ref =>
           if negb (List.length idx_arr =? List.length ref)%nat
              || negb (array_equal idx_arr ref)
           then
             Raises
               (SystemExit
                  ("Snapshot " ++ path
                   ++ " has different spatial sampling (idx set) than previous files; "
                   ++ "consider resampling or adjusting output stride in main.c."))
           else Returns (Some ref)
       end ;;
     if (field =? "rho")%string then
       Returns (snapshots ++ [(t, rho_arr)], x_idx_ref')
     else if (field =? "vel")%string then
       Returns (snapshots ++ [(t, vel_arr)], x_idx_ref')
     else if (field =? "pres")%string then
       Returns (snapshots ++ [(t, pres_arr)], x_idx_ref')
     else
       Raises (Builtin (ValueError
                 "field must be one of 'rho', 'vel', 'pres'"))).

Lemma build_step_accepts (field path : string)
  (snapshots : list (R * list R)) (x_idx_ref : option (list Z))
  (t : R) (x_idx : list Z) (rho_arr vel_arr pres_arr : list R) :
  known_field field ->
  read_snapshot path = Returns (t, x_idx, rho_arr, vel_arr, pres_arr) ->
  x_idx_ref = None \/ x_idx_ref = Some x_idx ->
  exists values,
    Plot_field_xt.select_field field rho_arr vel_arr pres_arr = Some values
    /\ build_step field (snapshots, x_idx_ref) path
       = Returns (snapshots ++ [(t, values)], Some x_idx).
Proof.
  intros Hfield Hread Href.
  assert (Hsel : exists values,
             Plot_field_xt.select_field field rho_arr vel_arr pres_arr
             = Some values).
  { unfold Plot_field_xt.select_field.
    destruct Hfield as [-> | [-> | ->]]; eexists; reflexivity. }
  destruct Hsel as [values Hsel]. exists values. split; [exact Hsel |].
  cbn beta iota. rewrite Hread. cbn [and_then].
  assert (Hcheck :
            match x_idx_ref with
            | None => Returns (Some x_idx)
            | Some ref =>
                if negb (List.length x_idx =? List.length ref)%nat
                   || negb (array_equal x_idx ref)
                then
                  Raises
                    (SystemExit
                       ("Snapshot " ++ path
                        ++ " has different spatial sampling (idx set) than previous files; "
                        ++ "consider resampling or adjusting output stride in main.c."))
                else Returns (Some ref)
            end = Returns (Some x_idx)).
  { destruct Href as [-> | ->]; [reflexivity |].
    now rewrite Nat.eqb_refl, array_equal_refl. }
  rewrite Hcheck. cbn [and_then].
  unfold Plot_field_xt.select_field in Hsel.
  destruct Hfield as [-> | [-> | ->]]; simpl in Hsel |- *;
    injection Hsel as <-; reflexivity.
Qed.

Lemma build_loop (field : string) (x_idx : list Z) (files : list string) :
  known_field field ->
  (forall path, In path files ->
     exists t rho_arr vel_arr pres_arr,
       read_snapshot path = Returns (t, x_idx, rho_arr, vel_arr, pres_arr)) ->
  forall snapshots x_idx_ref,
    x_idx_ref = None \/ x_idx_ref = Some x_idx ->
    for_in (build_step field) files (snapshots, x_idx_ref)
    = Returns (snapshots ++ field_rows field files,
               match files with [] => x_idx_ref | _ :: _ => Some x_idx end)
    /\ List.length (field_rows field files) = List.length files
    /\ Forall (fun row => List.length (snd row) = List.length x_idx)
         (field_rows field files).
Proof.
  intros Hfield.
  induction files as [| path rest IH]; intros Hread snapshots x_idx_ref Href.
  - simpl. rewrite app_nil_r. repeat split. constructor.
  - destruct (Hread path (or_introl eq_refl)) as (t & r & v & p & Hpath).
    destruct (build_step_accepts field path snapshots x_idx_ref t x_idx r v p
                Hfield Hpath Href) as (values & Hsel & Hstep).
    assert (Hrest : forall path', In path' rest ->
              exists t' r' v' p',
                read_snapshot path' = Returns (t', x_idx, r', v', p'))
      by (intros path' Hin; apply Hread; right; exact Hin).
    destruct (IH Hrest (snapshots ++ [(t, values)]) (Some x_idx)
                (or_intror eq_refl)) as (Hloop & Hlen & Hall).
    cbn [for_in Plot_field_xt.field_rows flat_map].
    fold (field_rows field rest).
    rewrite Hstep. cbn [and_then]. rewrite Hloop, Hpath, Hsel.
    split; [| split].
    + rewrite <- app_assoc. simpl. f_equal. f_equal.
      now destruct rest.
    + simpl. now rewrite Hlen.
    + simpl. constructor; [| exact Hall]. simpl.
      destruct (read_snapshot_lengths path t x_idx r v p Hpath)
        as (Hr & Hv & Hp).
      unfold Plot_field_xt.select_field in Hsel.
      destruct Hfield as [-> | [-> | ->]]; simpl in Hsel;
        injection Hsel as <-; assumption.
Qed.

Lemma vstack_rectangular (arrays : list (list R)) (n : nat) :
  arrays <> [] ->
  Forall (fun row => List.length row = n) arrays ->
  vstack arrays = Returns arrays.
Proof.
  intros Hne Hall. destruct arrays as [| first rest]; [contradiction |].
  inversion Hall as [| ? ? Hfirst Hrest]; subst.
  unfold Plot_field_xt.vstack.
  assert (H : forallb (fun row => List.length row =? List.length first)%nat
                rest = true).
  { apply forallb_forall. intros row Hrow.
    rewrite Forall_forall in Hrest. rewrite (Hrest row Hrow).
    apply Nat.eqb_refl. }
  now rewrite H.
Qed.

(** X29. When the directory has at least one snapshot, the field is one of
    [rho], [vel], [pres], and every file reads to the same index array,
    [build_xt_field] returns a rectangular grid: one time and one row per
    file, every row as long as the index array, the check on the index
    arrays leaving [np.vstack] nothing to refuse.  The rows are the rows of
    the files sorted stably by time, each with its own time; [NX] plays no
    part. *)
Theorem build_xt_field_grid (build_dir field : string) (NX : Z)
  (x_idx : list Z) :
  list_snapshot_files build_dir <> [] ->
  known_field field ->
  (forall path, In path (list_snapshot_files build_dir) ->
     exists t rho_arr vel_arr pres_arr,
       read_snapshot path = Returns (t, x_idx, rho_arr, vel_arr, pres_arr)) ->
  exists times F,
    build_xt_field build_dir field NX = Returns (times, x_idx, F)
    /\ combine times F
       = sort_by_key fst (field_rows field (list_snapshot_files build_dir))
    /\ Sorted Rle times
    /\ List.length times = List.length (list_snapshot_files build_dir)
    /\ List.length F = List.length (list_snapshot_files build_dir)
    /\ Forall (fun row => List.length row = List.length x_idx) F.
Proof.
  intros Hfiles Hfield Hread.
  destruct (build_loop field x_idx _ Hfield Hread [] None (or_introl eq_refl))
    as (Hloop & Hlen & Hall).
  unfold Plot_field_xt.build_xt_field.
  destruct (list_snapshot_files build_dir) as [| first others] eqn:Hlist;
    [contradiction |].
  rewrite <- Hlist in *. rewrite Hloop. cbn [and_then app].
  set (rows := field_rows field (list_snapshot_files build_dir)) in *.
  set (sorted := sort_by_key fst rows).
  assert (HP : Permutation sorted rows) by apply sort_by_key_permutation.
  assert (Hsorted_len : List.length sorted = List.length rows)
    by apply (Permutation_length HP).
  assert (Hrect : Forall (fun row => List.length row = List.length x_idx)
                    (map snd sorted)).
  { apply Forall_map. apply (Permutation_Forall (Permutation_sym HP)).
    exact Hall. }
  rewrite (vstack_rectangular (map snd sorted) (List.length x_idx)).
  - cbn [and_then].
    exists (map fst sorted), (map snd sorted).
    split; [reflexivity |].
    split; [apply combine_fst_snd |].
    split; [apply Sorted_fst_map, sort_by_key_sorted |].
    rewrite !length_map, Hsorted_len, Hlen. repeat split. exact Hrect.
  - intros Hnil. apply (f_equal (@List.length _)) in Hnil.
    rewrite length_map, Hsorted_len, Hlen, Hlist in Hnil. discriminate.
  - exact Hrect.
Qed.

Lemma build_loop_raises (field : string) (x_idx : list Z)
  (good rest : list string) (bad : string) (e : exception) :
  known_field field ->
  (forall path, In path good ->
     exists t rho_arr vel_arr pres_arr,
       read_snapshot path = Returns (t, x_idx, rho_arr, vel_arr, pres_arr)) ->
  forall snapshots x_idx_ref,
    x_idx_ref = None \/ x_idx_ref = Some x_idx ->
    (forall snapshots',
        build_step field
          (snapshots', match good with [] => x_idx_ref | _ :: _ => Some x_idx end)
          bad = Raises e) ->
    for_in (build_step field) (good ++ bad :: rest) (snapshots, x_idx_ref)
    = Raises e.
Proof.
  intros Hfield Hgood snapshots x_idx_ref Href Hbad.
  destruct (build_loop field x_idx good Hfield Hgood snapshots x_idx_ref Href)
    as (Hloop & _).
  rewrite (for_in_app _ _ _ _ _ Hloop). cbn [for_in]. now rewrite Hbad.
Qed.

(** X30. [build_xt_field] returns no partial grid.  An empty directory
    raises [SystemExit]; a field other than [rho], [vel], [pres] raises
    [ValueError], after the first file has been read; and a file whose
    index array differs from the one of the files before it - in length or
    in one index - raises [SystemExit] naming that file. *)
Theorem build_xt_field_failures (build_dir field : string) (NX : Z) :
  (list_snapshot_files build_dir = [] ->
   build_xt_field build_dir field NX
   = Raises (SystemExit ("No snapshot CSV found under " ++ build_dir)))
  /\ (forall first others t x_idx rho_arr vel_arr pres_arr,
        list_snapshot_files build_dir = first :: others ->
        read_snapshot first = Returns (t, x_idx, rho_arr, vel_arr, pres_arr) ->
        ~ known_field field ->
        build_xt_field build_dir field NX
        = Raises (Builtin (ValueError
                    "field must be one of 'rho', 'vel', 'pres'")))
  /\ (forall first good bad rest x_idx t idx_arr rho_arr vel_arr pres_arr,
        list_snapshot_files build_dir = (first :: good) ++ bad :: rest ->
        known_field field ->
        (forall path, In path (first :: good) ->
           exists t' rho' vel' pres',
             read_snapshot path = Returns (t', x_idx, rho', vel', pres')) ->
        read_snapshot bad = Returns (t, idx_arr, rho_arr, vel_arr, pres_arr) ->
        idx_arr <> x_idx ->
        build_xt_field build_dir field NX
        = Raises
            (SystemExit
               ("Snapshot " ++ bad
                ++ " has different spatial sampling (idx set) than previous files; "
                ++ "consider resampling or adjusting output stride in main.c."))).
Proof.
  unfold Plot_field_xt.build_xt_field. split; [| split].
  - intros ->. reflexivity.
  - intros first others t x_idx r v p -> Hread Hfield.
    cbn [for_in]. rewrite Hread. cbn [and_then].
    destruct (String.eqb_spec field "rho") as [-> | _];
      [exfalso; apply Hfield; left; reflexivity |].
    destruct (String.eqb_spec field "vel") as [-> | _];
      [exfalso; apply Hfield; right; left; reflexivity |].
    destruct (String.eqb_spec field "pres") as [-> | _];
      [exfalso; apply Hfield; right; right; reflexivity |].
    reflexivity.
  - intros first good bad rest x_idx t idx_arr r v p Hlist Hfield Hgood
      Hbad Hdiff.
    rewrite Hlist. cbn [app].
    change (first :: good ++ bad :: rest) with ((first :: good) ++ bad :: rest).
    rewrite (build_loop_raises field x_idx (first :: good) rest bad
               (SystemExit
                  ("Snapshot " ++ bad
                   ++ " has different spatial sampling (idx set) than previous files; "
                   ++ "consider resampling or adjusting output stride in main.c."))
               Hfield Hgood [] None (or_introl eq_refl)).
    + reflexivity.
    + intros snapshots'. rewrite Hbad. cbn [and_then].
      destruct (negb (List.length idx_arr =? List.length x_idx)%nat
                || negb (array_equal idx_arr x_idx)) eqn:Hcheck;
        [reflexivity |].
      apply orb_false_elim in Hcheck as [_ Heq].
      apply negb_false_iff, array_equal_eq in Heq. contradiction.
Qed.

End Plot_field_xt_facts.

(** ** The scripts on the example directory *)

Lemma stable_argsort_Z (keys : list Z) :
  is_argsort Z.le keys (stable_argsort IZR keys).
Proof.
  destruct (stable_argsort_is_argsort IZR keys)
    as (Hperm & sorted & Htake & Hsorted).
  split; [exact Hperm |]. exists sorted. split; [exact Htake |].
  clear Htake. induction Hsorted as [| x rest _ IH Hhd]; constructor.
  - exact IH.
  - destruct Hhd as [| y rest' Hle]; constructor. now apply le_IZR.
Qed.

(** The comparisons of the stable sort on the numbers of the examples. *)
Ltac sort_examples :=
  unfold stable_argsort, sort_by_key; simpl;
  repeat (match goal with
          | |- context [Rlt_dec ?a ?b] =>
              destruct (Rlt_dec a b); [try (exfalso; lra) | try (exfalso; lra)];
              simpl
          end).

Lemma example_read_snapshot_6 :
  Plot_field_xt.read_snapshot example_int example_float example_repr
    example_disk (stable_argsort IZR) "build/snapshot_6.csv"
  = Returns (1.5, [0; 1; 2]%Z, [1.5; 2; 3], [0.5; 0.5; 0.5], [3; 2; 7]).
Proof.
  unfold Plot_field_xt.read_snapshot. simpl. sort_examples. reflexivity.
Qed.

Lemma example_read_snapshot_7 :
  Plot_field_xt.read_snapshot example_int example_float example_repr
    example_disk (stable_argsort IZR) "build/snapshot_7.csv"
  = Returns (0.5, [0; 1; 2]%Z, [2; 2; 3], [0.5; 0.5; 0.5], [7; 7; 7]).
Proof.
  unfold Plot_field_xt.read_snapshot. simpl. sort_examples. reflexivity.
Qed.

Lemma example_read_snapshot_3 :
  Plot_field_xt.read_snapshot example_int example_float example_repr
    example_disk (stable_argsort IZR) "build/snapshot_3.csv"
  = Returns (2, [1; 2]%Z, [2; 3], [0.5; 0.5], [7; 7]).
Proof.
  unfold Plot_field_xt.read_snapshot. simpl. sort_examples. reflexivity.
Qed.

Lemma load_snapshot_keeps_rows_witness :
  Visualizations.load_snapshot example_int example_float example_repr
    "{'time', 'idx', 'rho', 'vel', 'pres'}" example_disk
    "build/snapshot_6.csv"
  = Returns {| Visualizations.time := 1.5;
               Visualizations.idx := [2; 0; 1]%Z;
               Visualizations.rho := [3; 1.5; 2];
               Visualizations.vel := [0.5; 0.5; 0.5];
               Visualizations.pres := [7; 3; 2] |}
  /\ Visualizations.load_snapshot example_int example_float example_repr
       "{'time', 'idx', 'rho', 'vel', 'pres'}" example_disk
       "build/snapshot_8.csv"
     = Raises OverflowError
  /\ Visualizations.load_snapshot example_int example_float example_repr
       "{'time', 'idx', 'rho', 'vel', 'pres'}" example_disk "build/empty.csv"
     = Returns {| Visualizations.time := 0;
                  Visualizations.idx := [];
                  Visualizations.rho := [];
                  Visualizations.vel := [];
                  Visualizations.pres := [] |}.
Proof.
  split; [| split].
  - apply (proj1 (load_snapshot_keeps_rows example_int example_float
                    example_repr "{'time', 'idx', 'rho', 'vel', 'pres'}"
                    example_disk "build/snapshot_6.csv" _ snapshot_columns
                    [(1.5, 2%Z, 3, 0.5, 7); (1.5, 0%Z, 1.5, 0.5, 3);
                     (1.5, 1%Z, 2, 0.5, 2)]
                    eq_refl eq_refl eq_refl eq_refl)).
    reflexivity.
  - apply (proj1 (proj2 (load_snapshot_keeps_rows example_int example_float
                    example_repr "{'time', 'idx', 'rho', 'vel', 'pres'}"
                    example_disk "build/snapshot_8.csv" _ snapshot_columns
                    [(0.5, 0%Z, 2, 0.5, 7); (0.5, (2 ^ 63)%Z, 2, 0.5, 7)]
                    eq_refl eq_refl eq_refl eq_refl))).
    reflexivity.
  - apply (proj2 (proj2 (load_snapshot_keeps_rows example_int example_float
                    example_repr "{'time', 'idx', 'rho', 'vel', 'pres'}"
                    example_disk "build/empty.csv" _ snapshot_columns []
                    eq_refl eq_refl eq_refl eq_refl))).
    reflexivity.
Defined.

Lemma load_snapshot_failures_witness :
  Visualizations.load_snapshot example_int example_float example_repr
    "{'time', 'idx', 'rho', 'vel', 'pres'}" example_disk
    "build/snapshot_9.csv"
  = Raises (FileNotFoundError "Snapshot CSV not found: build/snapshot_9.csv")
  /\ Visualizations.load_snapshot example_int example_float example_repr
       "{'time', 'idx', 'rho', 'vel', 'pres'}" example_disk
       "build/snapshot_4.csv"
     = Raises (Builtin (ValueError
                 ("CSV header must include {'time', 'idx', 'rho', 'vel', 'pres'}, got "
                  ++ example_repr (Some ["time"; "idx"; "vel"; "pres"]%string))))
  /\ Visualizations.load_snapshot example_int example_float example_repr
       "{'time', 'idx', 'rho', 'vel', 'pres'}" example_disk
       "build/snapshot_5.csv"
     = Raises (Builtin (ValueError
                 "could not convert string to float: 'soon'")).
Proof.
  destruct (load_snapshot_failures example_int example_float example_repr
              "{'time', 'idx', 'rho', 'vel', 'pres'}" example_disk
              "build/snapshot_9.csv") as (Hmissing & _ & _).
  destruct (load_snapshot_failures example_int example_float example_repr
              "{'time', 'idx', 'rho', 'vel', 'pres'}" example_disk
              "build/snapshot_4.csv") as (_ & Hheader & _).
  destruct (load_snapshot_failures example_int example_float example_repr
              "{'time', 'idx', 'rho', 'vel', 'pres'}" example_disk
              "build/snapshot_5.csv") as (_ & _ & Hrow).
  split; [apply Hmissing; reflexivity | split].
  - apply (Hheader _ "rho"%string eq_refl).
    + simpl. tauto.
    + intros names [= <-]. simpl.
      intros [H | [H | [H | [H | []]]]]; discriminate.
  - apply (Hrow _ snapshot_columns []
             (example_row "soon" "0" "1.5" "0.5" "2.0")
             [example_row "0.5" "0" "1.5" "0.5" "2.0"] []
             _ eq_refl eq_refl eq_refl eq_refl eq_refl eq_refl).
Defined.


Lemma read_snapshot_sorted_witness :
  (exists sorted,
      Plot_field_xt.read_snapshot example_int example_float example_repr
        example_disk (stable_argsort IZR) "build/snapshot_6.csv"
      = Returns (last (map record_time
                         [(1.5, 2%Z, 3, 0.5, 7); (1.5, 0%Z, 1.5, 0.5, 3);
                          (1.5, 1%Z, 2, 0.5, 2)]) 0,
                 map record_idx sorted, map record_rho sorted,
                 map record_vel sorted, map record_pres sorted)
      /\ Permutation sorted
           [(1.5, 2%Z, 3, 0.5, 7); (1.5, 0%Z, 1.5, 0.5, 3);
            (1.5, 1%Z, 2, 0.5, 2)]
      /\ Sorted Z.le (map record_idx sorted))
  /\ Plot_field_xt.read_snapshot example_int example_float example_repr
       example_disk (stable_argsort IZR) "build/snapshot_8.csv"
     = Raises OverflowError.
Proof.
  split.
  - apply (proj1 (read_snapshot_sorted example_int example_float example_repr
                    example_disk (stable_argsort IZR) stable_argsort_Z
                    "build/snapshot_6.csv" _ snapshot_columns
                    [(1.5, 2%Z, 3, 0.5, 7); (1.5, 0%Z, 1.5, 0.5, 3);
                     (1.5, 1%Z, 2, 0.5, 2)]
                    eq_refl eq_refl eq_refl eq_refl
                    ltac:(discriminate))).
    reflexivity.
  - apply (proj2 (read_snapshot_sorted example_int example_float example_repr
                    example_disk (stable_argsort IZR) stable_argsort_Z
                    "build/snapshot_8.csv" _ snapshot_columns
                    [(0.5, 0%Z, 2, 0.5, 7); (0.5, (2 ^ 63)%Z, 2, 0.5, 7)]
                    eq_refl eq_refl eq_refl eq_refl
                    ltac:(discriminate))).
    reflexivity.
Defined.

Lemma snapshot_without_rows_witness :
  Plot_field_xt.read_snapshot example_int example_float example_repr
    example_disk (stable_argsort IZR) "build/empty.csv"
  = Raises (Builtin (ValueError "CSV build/empty.csv has no data rows"))
  /\ Visualizations.load_snapshot example_int example_float example_repr
       "{'time', 'idx', 'rho', 'vel', 'pres'}" example_disk "build/empty.csv"
     = Returns {| Visualizations.time := 0;
                  Visualizations.idx := [];
                  Visualizations.rho := [];
                  Visualizations.vel := [];
                  Visualizations.pres := [] |}.
Proof.
  apply (snapshot_without_rows example_int example_float example_repr
           example_disk (stable_argsort IZR)
           "{'time', 'idx', 'rho', 'vel', 'pres'}" "build/empty.csv"
           _ snapshot_columns eq_refl eq_refl eq_refl eq_refl).
Defined.

Lemma build_xt_field_grid_witness :
  exists times F,
    Plot_field_xt.build_xt_field example_int example_float example_repr
      example_disk example_listing (stable_argsort IZR)
      example_vstack_message "grid" "rho" 100
    = Returns (times, [0; 1; 2]%Z, F)
    /\ combine times F
       = sort_by_key fst
           (Plot_field_xt.field_rows example_int example_float example_repr
              example_disk (stable_argsort IZR) "rho"
              (example_listing "grid"))
    /\ Sorted Rle times
    /\ List.length times = List.length (example_listing "grid")
    /\ List.length F = List.length (example_listing "grid")
    /\ Forall (fun row => List.length row = List.length [0; 1; 2]%Z) F.
Proof.
  apply (build_xt_field_grid example_int example_float example_repr
           example_disk example_listing (stable_argsort IZR)
           example_vstack_message "grid" "rho" 100 [0; 1; 2]%Z).
  - discriminate.
  - left. reflexivity.
  - intros path [<- | [<- | []]].
    + do 4 eexists. apply example_read_snapshot_6.
    + do 4 eexists. apply example_read_snapshot_7.
Defined.

Lemma build_xt_field_failures_witness :
  Plot_field_xt.build_xt_field example_int example_float example_repr
    example_disk example_listing (stable_argsort IZR)
    example_vstack_message "nowhere" "rho" 100
  = Raises (SystemExit "No snapshot CSV found under nowhere")
  /\ Plot_field_xt.build_xt_field example_int example_float example_repr
       example_disk example_listing (stable_argsort IZR)
       example_vstack_message "grid" "temp" 100
     = Raises (Builtin (ValueError
                 "field must be one of 'rho', 'vel', 'pres'"))
  /\ Plot_field_xt.build_xt_field example_int example_float example_repr
       example_disk example_listing (stable_argsort IZR)
       example_vstack_message "mixed" "pres" 100
     = Raises
         (SystemExit
            "Snapshot build/snapshot_3.csv has different spatial sampling (idx set) than previous files; consider resampling or adjusting output stride in main.c.").
Proof.
  split; [| split].
  - apply (proj1 (build_xt_field_failures example_int example_float
                    example_repr example_disk example_listing
                    (stable_argsort IZR) example_vstack_message
                    "nowhere" "rho" 100)).
    reflexivity.
  - apply (proj1 (proj2 (build_xt_field_failures example_int example_float
                           example_repr example_disk example_listing
                           (stable_argsort IZR) example_vstack_message
                           "grid" "temp" 100))
             "build/snapshot_6.csv"%string ["build/snapshot_7.csv"%string]
             1.5 [0; 1; 2]%Z [1.5; 2; 3] [0.5; 0.5; 0.5] [3; 2; 7]
             eq_refl example_read_snapshot_6).
    intros [H | [H | H]]; discriminate.
  - apply (proj2 (proj2 (build_xt_field_failures example_int example_float
                           example_repr example_disk example_listing
                           (stable_argsort IZR) example_vstack_message
                           "mixed" "pres" 100))
             "build/snapshot_6.csv"%string [] "build/snapshot_3.csv"%string []
             [0; 1; 2]%Z 2 [1; 2]%Z [2; 3] [0.5; 0.5] [7; 7]
             eq_refl (or_intror (or_intror eq_refl))).
    + intros path [<- | []]. do 4 eexists. apply example_read_snapshot_6.
    + apply example_read_snapshot_3.
    + discriminate.
Defined.

(** ** The binary64 embedding on concrete numbers

    Values of the embedding that can be compared with what the interpreter
    prints for the same expressions. *)

Section Binary64_examples.

Import Floats.
Local Open Scope float_scope.

(** [compute_a0()] on the data of the module is [1.3333333333333333],
    whatever the C library computes for the sine and the cosine. *)
Lemma compute_a0_b64_module (libm_sin libm_cos : float -> float)
  (domain_error : float -> string) :
  B64.compute_a0 libm_sin libm_cos domain_error B64.T B64.SEGMENTS
  = Returns 0x1.5555555555555p+0.
Proof. vm_compute. reflexivity. Qed.

(** Float modulo.  In order: [5.3 % -2.0], [123456.789 % 0.1],
    [-123456.789 % 0.1], [1e300 % 60.0], the smallest negative and the
    smallest positive number modulo [60.0], [(0.1 + 60.0) % 60.0],
    [-7.5 % 60.0], [7.5 % -60.0], [-0.0 % 60.0], [60.0 % 60.0],
    [60.0 % -60.0], [1e22 % 3.0] and [1.0 % 0.0]. *)
Lemma float_rem_b64_examples :
  B64.float_rem 0x1.5333333333333p+2 (-2) = Returns (-0x1.6666666666668p-1)
  /\ B64.float_rem 0x1.e240c9fbe76c9p+16 0x1.999999999999ap-4
     = Returns 0x1.6c8b4395543cap-4
  /\ B64.float_rem (-0x1.e240c9fbe76c9p+16) 0x1.999999999999ap-4
     = Returns 0x1.6872b0222ae8p-7
  /\ B64.float_rem 0x1.7e43c8800759cp+996 60 = Returns 0
  /\ B64.float_rem (-0x0.0000000000001p-1022) 60 = Returns 60
  /\ B64.float_rem 0x0.0000000000001p-1022 60
     = Returns 0x0.0000000000001p-1022
  /\ B64.float_rem (0x1.999999999999ap-4 + 60) 60
     = Returns 0x1.9999999999ap-4
  /\ B64.float_rem (-7.5) 60 = Returns 52.5
  /\ B64.float_rem 7.5 (-60) = Returns (-52.5)
  /\ B64.float_rem (-0) 60 = Returns 0
  /\ B64.float_rem 60 60 = Returns 0
  /\ B64.float_rem 60 (-60) = Returns (-0)
  /\ B64.float_rem 0x1.0f0cf064dd592p+73 3 = Returns 1
  /\ B64.float_rem 1 0 = Raises (Builtin ZeroDivisionError).
Proof. repeat split; vm_compute; reflexivity. Qed.

(** The conversion of an integer operand rounds to nearest, ties to even,
    and stops at [2 ** 1024 - 2 ** 970]. *)
Lemma of_int_b64_examples :
  B64.of_int 3 = Returns 3
  /\ B64.of_int (2 ^ 53 + 1) = Returns 0x1p+53
  /\ B64.of_int (2 ^ 53 + 3) = Returns 0x1.0000000000002p+53
  /\ B64.of_int (- (2 ^ 53 + 1)) = Returns (-0x1p+53)
  /\ B64.of_int (2 ^ 1024 - 2 ^ 970 - 1) = Returns 0x1.fffffffffffffp+1023
  /\ B64.of_int (2 ^ 1024 - 2 ^ 970) = Raises OverflowError
  /\ B64.of_int (- 10 ^ 400) = Raises OverflowError.
Proof. repeat split; vm_compute; reflexivity. Qed.

End Binary64_examples.
